(** * Porthole: the local service gateway of [server.js]

    A shallow embedding of the port scanner, the process lifecycle
    controller, the tunnel session manager and the request router of
    [server.js], followed by the properties of the specification that
    are stated about them.

    Conventions of the embedding

    - JavaScript numbers that hold ports, indices and exit codes are [Z].
    - JavaScript strings are [string]; only the string methods the
      source calls are defined, in module [Js].
    - A [try { ... } catch] block is a [completion]: [Normal v] or
      [Throw msg].
    - Everything the program learns from outside (a socket event, the
      output of [lsof], the agent's HTTP replies, the events of the
      spawned agent) is an explicit argument of the function that
      consumes it; everything it does to the outside is returned as
      data. *)

From Stdlib Require Import ZArith List String Ascii Bool Lia.
From Stdlib Require Import Decimal DecimalString DecimalZ.
Import ListNotations.

Local Open Scope string_scope.
Local Open Scope Z_scope.

(* ================================================================== *)
(** * JavaScript strings *)
(* ================================================================== *)

Module Js.

(** [s.slice(n)] on a string, for [0 <= n]. *)
Fixpoint slice (n : nat) (s : string) : string :=
  match n, s with
  | O, _ => s
  | S _, EmptyString => EmptyString
  | S k, String _ t => slice k t
  end.

(** [s.startsWith(p)]. *)
Fixpoint startsWith (p s : string) : bool :=
  match p, s with
  | EmptyString, _ => true
  | String _ _, EmptyString => false
  | String a p', String b s' => Ascii.eqb a b && startsWith p' s'
  end.

(** [s.includes(sub)]: [sub] occurs somewhere in [s]. *)
Fixpoint includes (s sub : string) : bool :=
  startsWith sub s ||
  match s with
  | EmptyString => false
  | String _ t => includes t sub
  end.

(** [s.replace(pat, rep)] with string arguments: the first occurrence
    of [pat] is replaced, the rest of [s] is kept.  [rep] holds no
    [$], so no replacement pattern is expanded. *)
Fixpoint replace (pat rep s : string) : string :=
  if startsWith pat s then rep ++ slice (String.length pat) s
  else match s with
       | EmptyString => EmptyString
       | String c t => String c (replace pat rep t)
       end.

(** White space and line terminators of the ASCII range, the
    characters [trim] strips. *)
Definition is_space (c : ascii) : bool :=
  let n := nat_of_ascii c in
  ((9 <=? n) && (n <=? 13))%nat || (n =? 32)%nat.

Fixpoint trimStart (s : string) : string :=
  match s with
  | EmptyString => EmptyString
  | String c t => if is_space c then trimStart t else s
  end.

Fixpoint trimEnd (s : string) : string :=
  match s with
  | EmptyString => EmptyString
  | String c t =>
      match trimEnd t with
      | EmptyString => if is_space c then EmptyString else String c EmptyString
      | t' => String c t'
      end
  end.

(** [s.trim()]. *)
Definition trim (s : string) : string := trimEnd (trimStart s).

(** [s.split(sep)] for a one-character separator; the empty string
    splits into one empty field. *)
Fixpoint split (sep : ascii) (s : string) : list string :=
  match s with
  | EmptyString => [EmptyString]
  | String c t =>
      if Ascii.eqb c sep then EmptyString :: split sep t
      else match split sep t with
           | h :: r => String c h :: r
           | [] => [String c EmptyString]
           end
  end.

(** Truthiness of a string, of an optional string ([undefined] is
    falsy) and of a number. *)
Definition truthy (s : string) : bool :=
  match s with EmptyString => false | _ => true end.

Definition truthy_opt (o : option string) : bool :=
  match o with Some s => truthy s | None => false end.

(** [s || d] on strings: [d] stands in for the empty string. *)
Definition or_else (s d : string) : string :=
  match s with EmptyString => d | _ => s end.

(** [arr.filter(Boolean)] on an array of strings. *)
Definition filterBoolean (l : list string) : list string :=
  filter truthy l.

(** The template literal [`${n}`] of an integer. *)
Definition show (n : Z) : string :=
  NilZero.string_of_int (Z.to_int n).

(** The template literal of the result of [parseInt]. *)
Definition show_number (n : option Z) : string :=
match n with Some z => show z | None => "NaN" end.

(** The regular expression class [\d]. *)
Definition is_digit (c : ascii) : bool :=
  let n := nat_of_ascii c in ((48 <=? n) && (n <=? 57))%nat.

(** The longest run of digits at the head of [s] (a greedy [\d*])
    and what follows it. *)
Fixpoint span_digits (s : string) : string * string :=
  match s with
  | EmptyString => (EmptyString, EmptyString)
  | String c t =>
      if is_digit c
      then let (ds, r) := span_digits t in (String c ds, r)
      else (EmptyString, s)
  end.

(** [parseInt(ds, 10)] on a captured run of digits; [None] is [NaN].
    The value is the integer the digits spell.  JavaScript gives the
    same number up to 2^53 - 1 and the nearest double above it; the
    statements that depend on the number read bound it by 2^53 - 1 or
    by the largest port, 65535, and forwarding refuses every larger
    port, whichever double is read. *)
Definition parseInt (ds : string) : option Z :=
  match NilZero.uint_of_string ds with
  | Some d => Some (Z.of_uint d)
  | None => None
  end.

(** [/key(\d+)/] tried at the head of [s]: the captured digits. *)
Definition match_here (key s : string) : option string :=
  if startsWith key s
  then match span_digits (slice (String.length key) s) with
       | (EmptyString, _) => None
       | (ds, _) => Some ds
       end
  else None.

(** [s.match(/key(\d+)/)]: the capture of the leftmost match. *)
Fixpoint match_digits (key s : string) : option string :=
  match match_here key s with
  | Some ds => Some ds
  | None =>
      match s with
      | EmptyString => None
      | String _ t => match_digits key t
      end
  end.

(** The class [.] of a regular expression without the [s] flag
    rejects line terminators. *)
Definition is_line_terminator (c : ascii) : bool :=
  let n := nat_of_ascii c in ((n =? 10) || (n =? 13))%nat.

Fixpoint no_line_terminator (s : string) : bool :=
  match s with
  | EmptyString => true
  | String c t => negb (is_line_terminator c) && no_line_terminator t
  end.

End Js.

(* ================================================================== *)
(** * Completions: the result of a block that may throw *)
(* ================================================================== *)

Inductive completion (A : Type) : Type :=
| Normal (v : A)
| Throw (message : string).
Arguments Normal {A} v.
Arguments Throw {A} message.

Definition bind {A B : Type} (c : completion A) (k : A -> completion B)
  : completion B :=
  match c with
  | Normal v => k v
  | Throw m => Throw m
  end.

(** [try { body } catch (e) { handler(e.message) }]. *)
Definition try_catch {A : Type} (body : completion A) (handler : string -> A)
  : A :=
  match body with
  | Normal v => v
  | Throw m => handler m
  end.

Notation "x <- c ;; k" := (bind c (fun x => k))
  (at level 61, c at next level, right associativity).

(** The [{ success, message }] objects (and [url], for tunnels) that
    the lifecycle controller and the tunnel manager return. *)
Record api_result : Type := mkResult {
  success : bool;
  url : option string;
  message : option string
}.

Definition ok_result (msg : string) : api_result :=
  mkResult true None (Some msg).
Definition fail_result (msg : string) : api_result :=
  mkResult false None (Some msg).

(* ================================================================== *)
(** * Configuration ([config.json]) *)
(* ================================================================== *)

(** One entry of [quickLaunch]. *)
Record QuickLaunchCommand : Type := mkCommand {
  ql_name : string;
  ql_command : string
}.

(** [ngrok_allowedEmailDomain] is [None] when the key is absent. *)
Record config : Type := mkConfig {
  serverPort : Z;
  ngrok_domain : string;
  ngrok_allowedEmailDomain : option string;
  portRanges : list (Z * Z);
  quickLaunch : list QuickLaunchCommand
}.

(* ================================================================== *)
(** * Port scanner *)
(* ================================================================== *)

(** The inner loop [for (port = start; port <= end; port++)], entered
    [n] times. *)
Fixpoint count_up (start : Z) (n : nat) : list Z :=
  match n with
  | O => []
  | S k => start :: count_up (start + 1) k
  end.

Definition getPortsToScan (portRanges : list (Z * Z)) : list Z :=
  flat_map (fun r => count_up (fst r) (Z.to_nat (snd r - fst r + 1)))
           portRanges.

(** What [getProcessInfo] returns: the two first columns of the first
    [lsof] line, or [("unknown", null)]. *)
Record ProcessInfo : Type := mkProcessInfo {
  pi_name : string;
  pi_pid : option string
}.

(** An element of the array [scanPorts] returns:
    [{ port, ...processInfo }]. *)
Record ServiceInfo : Type := mkServiceInfo {
  svc_port : Z;
  svc_name : string;
  svc_pid : option string
}.

Definition batchSize : nat := 50.

(** [arr.slice(i, j)] for [0 <= i <= j]. *)
Definition array_slice {A : Type} (i j : nat) (l : list A) : list A :=
  firstn (j - i) (skipn i l).

(** [checks.filter(Boolean)] on an array of objects and [null]s. *)
Fixpoint filter_non_null {A : Type} (l : list (option A)) : list A :=
  match l with
  | [] => []
  | Some x :: t => x :: filter_non_null t
  | None :: t => filter_non_null t
  end.

Section Scanner.

(** The gateway's own port, the boolean that [await checkPort(port)]
    yields for the port at a position of [portsToScan] (two probes of
    one port may differ) and the process resolver. *)
Variable ownPort : Z.
Variable checkPort_result : nat -> Z -> bool.
Variable getProcessInfo : Z -> ProcessInfo.

(** The callback of [batch.map] in [scanPorts], for the port at
    position [pos] of [portsToScan]. *)
Definition scan_one (pos : nat) (port : Z) : option ServiceInfo :=
  if port =? ownPort then None
  else if checkPort_result pos port
       then let info := getProcessInfo port in
            Some (mkServiceInfo port (pi_name info) (pi_pid info))
       else None.

(** One batch: [Promise.all(batch.map(...))] keeps the order of the
    batch. *)
Definition scan_batch (i : nat) (batch : list Z) : list (option ServiceInfo) :=
  map (fun ip => scan_one (fst ip) (snd ip))
      (combine (seq i (List.length batch)) batch).

(** The loop [for (i = 0; i < portsToScan.length; i += batchSize)];
    [fuel] bounds the number of iterations. *)
Fixpoint scan_loop (fuel : nat) (i : nat) (portsToScan : list Z)
         (results : list ServiceInfo) : list ServiceInfo :=
  match fuel with
  | O => results
  | S fuel' =>
      if (i <? List.length portsToScan)%nat
      then
        let batch := array_slice i (i + batchSize) portsToScan in
        let checks := scan_batch i batch in
        scan_loop fuel' (i + batchSize) portsToScan
                  (results ++ filter_non_null checks)
      else results
  end.

(** [scanPorts]: every iteration advances [i] by [batchSize], so
    [length portsToScan] iterations are enough to leave the loop. *)
Definition scanPorts (portRanges : list (Z * Z)) : list ServiceInfo :=
  let portsToScan := getPortsToScan portRanges in
  scan_loop (List.length portsToScan) 0 portsToScan [].

End Scanner.

(* ================================================================== *)
(** * Liveness prober *)
(* ================================================================== *)

(** The state of a promise. *)
Inductive promise (A : Type) : Type :=
| Pending
| Resolved (v : A)
| Rejected (reason : string).
Arguments Pending {A}.
Arguments Resolved {A} v.
Arguments Rejected {A} reason.

(** [resolve(v)] and [reject(m)] settle a pending promise and do
    nothing to a settled one. *)
Definition resolve {A : Type} (v : A) (p : promise A) : promise A :=
  match p with Pending => Resolved v | _ => p end.

Definition reject {A : Type} (m : string) (p : promise A) : promise A :=
  match p with Pending => Rejected m | _ => p end.

(** The three events [checkPort] listens to. *)
Inductive socket_event : Type :=
| SockConnect
| SockTimeout
| SockError.

(** The variable [resolved], the number of [socket.destroy()] calls
    and the promise [checkPort] returned. *)
Record probe_state : Type := mkProbe {
  resolved : bool;
  destroyed : nat;
  probe_promise : promise bool
}.

Definition on_connect (st : probe_state) : probe_state :=
  mkProbe true (S (destroyed st)) (resolve true (probe_promise st)).

Definition on_timeout (st : probe_state) : probe_state :=
  if resolved st then st
  else mkProbe true (S (destroyed st)) (resolve false (probe_promise st)).

Definition on_error (st : probe_state) : probe_state :=
  if resolved st then st
  else mkProbe true (S (destroyed st)) (resolve false (probe_promise st)).

Definition socket_deliver (st : probe_state) (ev : socket_event) : probe_state :=
  match ev with
  | SockConnect => on_connect st
  | SockTimeout => on_timeout st
  | SockError => on_error st
  end.

(** [socket.setTimeout] throws on a negative duration and
    [socket.connect] on a port outside [0, 65535]; an exception in the
    executor of [new Promise] rejects the promise. *)
Definition valid_timeout (timeout : Z) : bool := 0 <=? timeout.
Definition valid_port (port : Z) : bool := (0 <=? port) && (port <? 65536).

(** [checkPort(port, timeout)] followed by the socket events [events],
    in the order the socket emits them. *)
Definition checkPort (port timeout : Z) (events : list socket_event)
  : probe_state :=
  if negb (valid_timeout timeout)
  then mkProbe false 0 (Rejected "ERR_OUT_OF_RANGE")
  else if negb (valid_port port)
  then mkProbe false 0 (Rejected "ERR_SOCKET_BAD_PORT")
  else fold_left socket_deliver events (mkProbe false 0 Pending).

(* ================================================================== *)
(** * Process lifecycle controller *)
(* ================================================================== *)

Definition lsof_command (port : Z) : string :=
  "lsof -i :" ++ Js.show port ++ " -P -n -t".

Definition kill_command (pid : string) : string := "kill -9 " ++ pid.

(** [output.trim().split('\n').filter(Boolean)]. *)
Definition parse_pids (output : string) : list string :=
  Js.filterBoolean (Js.split "010" (Js.trim output)).

Section Lifecycle.

(** [execSync(cmd)]: the standard output of the command, or the
    exception raised when it exits with a non-zero status, times out
    or cannot be run. *)
Variable execSync : string -> completion string.

(** The loop [for (const pid of pids) execSync(`kill -9 ${pid}`)]:
    the commands it ran, and how it ended. *)
Fixpoint kill_each (pids : list string) : list string * completion unit :=
  match pids with
  | [] => ([], Normal tt)
  | pid :: rest =>
      match execSync (kill_command pid) with
      | Normal _ =>
          let (ran, c) := kill_each rest in (kill_command pid :: ran, c)
      | Throw m => ([kill_command pid], Throw m)
      end
  end.

(** The body of the [try] block of [killByPort]. *)
Definition killByPort_try (port : Z) : list string * completion api_result :=
  match execSync (lsof_command port) with
  | Throw m => ([lsof_command port], Throw m)
  | Normal output =>
      let (ran, c) := kill_each (parse_pids output) in
      (lsof_command port :: ran,
       _ <- c ;;
       Normal (ok_result ("Killed process(es) on port " ++ Js.show port)))
  end.

(** [killByPort(port)]: the commands it ran and the object it
    returns. *)
Definition killByPort (port : Z) : list string * api_result :=
  let (ran, c) := killByPort_try port in
  (ran,
   try_catch c (fun m =>
     fail_result ("Failed to kill process on port " ++ Js.show port
                  ++ ": " ++ m))).

End Lifecycle.

(** [arr[index]]: [undefined] outside the array. *)
Definition array_get {A : Type} (l : list A) (index : Z) : option A :=
  if index <? 0 then None else nth_error l (Z.to_nat index).

(** A call [spawn(executable, args, { detached, stdio: 'ignore' })]
    that returned a child process. *)
Record spawned : Type := mkSpawned {
  sp_executable : string;
  sp_args : list string;
  sp_detached : bool;
  sp_unref : bool
}.

Section Launcher.

(** [spawn(executable, args, options)] returns a child process or
    throws. *)
Variable spawn : string -> list string -> completion unit.

(** [launchCommand(index)]: the object it returns and the processes
    it started. *)
Definition launchCommand (quickLaunch : list QuickLaunchCommand) (index : Z)
  : api_result * list spawned :=
  match array_get quickLaunch index with
  | None => (fail_result "Invalid command index", [])
  | Some cmd =>
      let parts := Js.split " " (ql_command cmd) in
      let executable := hd EmptyString parts in
      let args := tl parts in
      match spawn executable args with
      | Normal _ =>
          (ok_result ("Started: " ++ ql_name cmd),
           [mkSpawned executable args true true])
      | Throw m =>
          (fail_result ("Failed to start " ++ ql_name cmd ++ ": " ++ m), [])
      end
  end.

End Launcher.

(** What [spawn] does with an empty [file] argument: it throws
    [ERR_INVALID_ARG_VALUE] before any process is created. *)
Definition spawn_rejects_empty (executable : string) (args : list string)
  : completion unit :=
  match executable with
  | EmptyString => Throw "The argument 'file' cannot be empty. Received ''"
  | _ => Normal tt
  end.

(* ================================================================== *)
(** * Tunnel session manager: per-port tunnels *)
(* ================================================================== *)

(** An element of [tunnels.tunnels] in the agent's listing, seen
    through the two paths the source reads: [t.config?.addr] and
    [t.public_url]; [None] is [undefined]. *)
Record tunnel : Type := mkTunnel {
  config_addr : option string;
  public_url : option string
}.

(** How the request [GET http://127.0.0.1:4040/api/tunnels] ends. *)
Inductive listing_reply : Type :=
| ListingError                  (* the request emitted 'error' *)
| ListingTimeout                (* the request timed out first *)
| ListingMalformed              (* JSON.parse or the callback threw *)
| ListingDoc (tunnels : option (list tunnel)).
                                (* the parsed body and its [tunnels] *)

Definition opt_includes (o : option string) (sub : string) : bool :=
  match o with Some s => Js.includes s sub | None => false end.

Definition opt_startsWith (o : option string) (p : string) : bool :=
  match o with Some s => Js.startsWith p s | None => false end.

(** The predicate of [find] in [getNgrokTunnelUrl]. *)
Definition targets_port_https (port : Z) (t : tunnel) : bool :=
  opt_includes (config_addr t) (":" ++ Js.show port)
  && opt_startsWith (public_url t) "https".

(** [getNgrokTunnelUrl(port)]: the value the promise resolves to,
    [None] for [null]. *)
Definition getNgrokTunnelUrl (port : Z) (reply : listing_reply)
  : option string :=
  match reply with
  | ListingDoc (Some ts) =>
      match find (targets_port_https port) ts with
      | Some t => if Js.truthy_opt (public_url t) then public_url t else None
      | None => None
      end
  | ListingDoc None => None
  | ListingError | ListingTimeout | ListingMalformed => None
  end.

(** How the request [POST /api/tunnels] ends. *)
Inductive create_reply : Type :=
| CreateError (msg : string)       (* the request emitted 'error' *)
| CreateTimeout                    (* five seconds passed first *)
| CreateParseError (msg : string)  (* JSON.parse or the callback threw *)
| CreateDoc (result_public_url : option string)
            (result_error_code : bool)      (* truthiness of [error_code] *)
            (result_msg : option string).

(** A request sent to the agent's control API. *)
Inductive agent_request : Type :=
| GetTunnels
| PostTunnel (addr proto name subdomain : string).

(** [activeTunnels]: a [Map] from port to [{ url }], in insertion
    order. *)
Definition tunnel_map : Type := list (Z * string).

(** [activeTunnels.set(port, { url })]: the value of a present key is
    replaced where it stands, an absent key is appended. *)
Fixpoint map_set (port : Z) (u : string) (m : tunnel_map) : tunnel_map :=
  match m with
  | [] => [(port, u)]
  | (p, v) :: r => if p =? port then (port, u) :: r
                   else (p, v) :: map_set port u r
  end.

Definition map_get (port : Z) (m : tunnel_map) : option string :=
  match find (fun e => fst e =? port) m with
  | Some e => Some (snd e)
  | None => None
  end.

(** The number of entries of the map under [port]. *)
Definition entries_for (port : Z) (m : tunnel_map) : nat :=
  List.length (filter (fun e => fst e =? port) m).

(** "Prefer https URL". *)
Definition prefer_https (u : string) : string :=
  if Js.startsWith "https" u then u
  else Js.replace "http://" "https://" u.

(** The callback of the [POST] request in [createTunnel]. *)
Definition on_create_reply (port : Z) (reply : create_reply)
           (activeTunnels : tunnel_map) : api_result * tunnel_map :=
  match reply with
  | CreateDoc pu error_code msg =>
      match pu with
      | Some (String c r as u) =>
          let u' := prefer_https u in
          (mkResult true (Some u') None, map_set port u' activeTunnels)
      | _ =>
          if error_code
          then (fail_result
                  (match msg with
                   | Some (String c r as m) => m
                   | _ => "Failed to create tunnel"
                   end), activeTunnels)
          else (fail_result "Unexpected response from ngrok", activeTunnels)
      end
  | CreateParseError m => (fail_result ("Parse error: " ++ m), activeTunnels)
  | CreateError m => (fail_result ("ngrok API error: " ++ m), activeTunnels)
  | CreateTimeout =>
      (fail_result "Timeout connecting to ngrok API", activeTunnels)
  end.

(** [createTunnel(port)]: [listing] answers the lookup it starts
    with, [creation] the [POST] it sends when the lookup finds
    nothing.  The result, the new [activeTunnels] and the requests
    sent. *)
Definition createTunnel (port : Z) (listing : listing_reply)
           (creation : create_reply) (activeTunnels : tunnel_map)
  : api_result * tunnel_map * list agent_request :=
  match getNgrokTunnelUrl port listing with
  | Some existingUrl =>
      (mkResult true (Some existingUrl) (Some "Tunnel already exists"),
       map_set port existingUrl activeTunnels,
       [GetTunnels])
  | None =>
      let subdomain := "porthole-" ++ Js.show port in
      let post := PostTunnel ("http://localhost:" ++ Js.show port) "http"
                             ("porthole-" ++ Js.show port) subdomain in
      let (r, m) := on_create_reply port creation activeTunnels in
      (r, m, [GetTunnels; post])
  end.

(** A sequence of [createTunnel] calls, each with the two replies the
    agent gives it. *)
Fixpoint createTunnel_calls
         (calls : list (Z * listing_reply * create_reply))
         (activeTunnels : tunnel_map) : tunnel_map :=
  match calls with
  | [] => activeTunnels
  | (port, listing, creation) :: rest =>
      createTunnel_calls rest
        (snd (fst (createTunnel port listing creation activeTunnels)))
  end.

(** The body of [GET /api/tunnels]: [tunnels[port] = data.url] for
    every entry. *)
Definition api_tunnels (activeTunnels : tunnel_map) : list (Z * string) :=
  map (fun e => (fst e, snd e)) activeTunnels.

(* ================================================================== *)
(** * Reverse proxy router: the request handler *)
(* ================================================================== *)

(** What the handler reads of a request: [req.method], the
    [pathname] and [search] of the parsed [req.url] and
    [req.headers.cookie]. *)
Record request : Type := mkRequest {
  req_method : string;
  req_pathname : string;
  req_search : string;
  req_cookie : option string
}.

(** What the handler does with a request. *)
Inductive response : Type :=
| RunScan                          (* 200, JSON of scanPorts() *)
| RunKill (port : Z)               (* 200, JSON of killByPort(port) *)
| RunLaunch (index : Z)            (* 200, JSON of launchCommand(index) *)
| RunCreateTunnel (port : Z)       (* 200, JSON of createTunnel(port) *)
| ListCommands                     (* 200, JSON of quickLaunch *)
| ListTunnels                      (* 200, JSON of activeTunnels *)
| BadRequest (msg : string)        (* 400, { success: false, message } *)
| Redirect (set_cookie location : string)             (* 302 *)
| NoProxyTarget                    (* 400, "No proxy target set" *)
| Forward (port : Z) (path method host : string)
                                   (* http.request to 127.0.0.1:port *)
| Dashboard                        (* 200, the HTML page *)
| NotFound                         (* 404 *)
| HandlerThrows (code : string).   (* an exception leaves the handler:
                                      its promise rejects, unhandled *)

Definition cookie_key : string := "porthole_proxy_port=".

(** [portMatch ? parseInt(portMatch[1], 10) : NaN] for the routes of
    the API. *)
Definition route_number (key pathname : string) : option Z :=
  match Js.match_digits key pathname with
  | Some ds => Js.parseInt ds
  | None => None
  end.

(** The target port read from the cookie header:
    [(req.headers.cookie || '').match(/porthole_proxy_port=(\d+)/)]
    and [parseInt]; [None] is [null]. *)
Definition cookie_target (cookie : option string) : option Z :=
  let cookies := match cookie with Some c => c | None => EmptyString end in
  match Js.match_digits cookie_key cookies with
  | Some ds => Js.parseInt ds
  | None => None
  end.

(** A target port is usable when it is truthy: not [null], not [0]. *)
Definition truthy_port (t : option Z) : option Z :=
  match t with
  | Some 0 => None
  | Some p => Some p
  | None => None
  end.

(** The match of [pathname] against the anchored pattern of the
    selection route: [/proxy/], one or more digits (first capture) and,
    optionally, a slash followed by any characters but line
    terminators up to the end (second capture). *)
Definition match_proxy (pathname : string) : option (string * option string) :=
  if Js.startsWith "/proxy/" pathname
  then match Js.span_digits (Js.slice 7 pathname) with
       | (EmptyString, _) => None
       | (ds, EmptyString) => Some (ds, None)
       | (ds, (String c _) as rest) =>
           if Ascii.eqb c "/" && Js.no_line_terminator rest
           then Some (ds, Some rest)
           else None
       end
  else None.

(** [http.request({ hostname: '127.0.0.1', port: targetPort, path,
    method, headers }, ...)] for a truthy [targetPort].  The socket
    layer takes the ports up to 65535; for a larger one [http.request]
    throws [ERR_SOCKET_BAD_PORT] before anything is sent, and nothing
    in the handler catches it. *)
Definition forward_to (targetPort : Z) (path : string) (req : request)
  : response :=
  if targetPort <=? 65535
  then Forward targetPort path (req_method req)
               ("localhost:" ++ Js.show targetPort)
  else HandlerThrows "ERR_SOCKET_BAD_PORT".

(** The routes of the API, in the order the handler tries them;
    [None] when none of them takes the request. *)
Definition api_routes (req : request) : option response :=
  let pathname := req_pathname req in
  let method := req_method req in
  if String.eqb pathname "/api/ports" && String.eqb method "GET"
  then Some RunScan
  else if Js.startsWith "/api/kill/" pathname && String.eqb method "POST"
  then Some match route_number "/api/kill/" pathname with
            | Some port => RunKill port
            | None => BadRequest ("Invalid port: " ++ pathname)
            end
  else if Js.startsWith "/api/launch/" pathname && String.eqb method "POST"
  then Some match route_number "/api/launch/" pathname with
            | Some index => RunLaunch index
            | None => BadRequest "Invalid command index"
            end
  else if String.eqb pathname "/api/commands" && String.eqb method "GET"
  then Some ListCommands
  else if Js.startsWith "/api/tunnel/" pathname && String.eqb method "POST"
  then Some match route_number "/api/tunnel/" pathname with
            | Some port => RunCreateTunnel port
            | None => BadRequest "Invalid port"
            end
  else if String.eqb pathname "/api/tunnels" && String.eqb method "GET"
  then Some ListTunnels
  else None.

(** The routes that follow: selection, the canonical prefix, the bare
    paths, the dashboard and the 404 page. *)
Definition proxy_routes (req : request) : response :=
  let pathname := req_pathname req in
  let method := req_method req in
  match match_proxy pathname with
  | Some (ds, sub) =>
      let targetPort := Js.parseInt ds in
      let targetPath := match sub with
                        | Some p => Js.or_else p "/"
                        | None => "/"
                        end in
      Redirect (cookie_key ++ Js.show_number targetPort
                ++ "; Path=/; SameSite=Lax")
               ("/p" ++ targetPath ++ req_search req)
  | None =>
  if Js.startsWith "/p/" pathname || String.eqb pathname "/p"
  then match truthy_port (cookie_target (req_cookie req)) with
       | None => NoProxyTarget
       | Some targetPort =>
           let targetPath := Js.or_else (Js.slice 2 pathname) "/" in
           forward_to targetPort (targetPath ++ req_search req) req
       end
  else
  match
    (if negb (Js.startsWith "/api/" pathname) && negb (String.eqb pathname "/")
     then truthy_port (cookie_target (req_cookie req))
     else None)
  with
  | Some targetPort =>
      forward_to targetPort (pathname ++ req_search req) req
  | None =>
      if String.eqb pathname "/" && String.eqb method "GET"
      then Dashboard
      else NotFound
  end
  end.

(** The request handler of [http.createServer]: a sequence of
    [if (...) { ...; return; }] blocks, the first that applies
    answers. *)
Definition handle (req : request) : response :=
  match api_routes req with
  | Some r => r
  | None => proxy_routes req
  end.

(* ================================================================== *)
(** * Tunnel session manager: startup reconciliation *)
(* ================================================================== *)

(** The object [checkExistingNgrok] resolves to; an absent
    [hasOtherTunnels] is falsy like [false]. *)
Record existing : Type := mkExisting {
  ex_exists : bool;
  ex_url : option string;
  ex_hasOtherTunnels : bool
}.

(** The predicate of [find] in [checkExistingNgrok]. *)
Definition targets_gateway (cfg : config) (t : tunnel) : bool :=
  opt_includes (config_addr t) (":" ++ Js.show (serverPort cfg))
  && opt_includes (public_url t) (ngrok_domain cfg).

Definition checkExistingNgrok (cfg : config) (reply : listing_reply)
  : existing :=
  match reply with
  | ListingDoc (Some ts) =>
      match find (targets_gateway cfg) ts with
      | Some existingTunnel => mkExisting true (public_url existingTunnel) false
      | None => mkExisting false None (0 <? List.length ts)%nat
      end
  | ListingDoc None => mkExisting false None false
  | ListingError | ListingTimeout | ListingMalformed =>
      mkExisting false None false
  end.

(** What the gateway does to the outside while it starts. *)
Inductive effect : Type :=
| Listen (port : Z)                 (* server.listen(serverPort) *)
| QueryAgent                        (* GET 127.0.0.1:4040/api/tunnels *)
| Log (line : string)               (* console.log *)
| LogError (line : string)          (* console.error *)
| Pkill                             (* execSync('pkill -f ngrok') *)
| Sleep (ms : Z)                    (* setTimeout(resolve, ms) *)
| WritePolicy (path deny_unless : string)
                                    (* fs.writeFileSync(policyPath, policy) *)
| SpawnAgent (args : list string)   (* spawn('ngrok', args) *)
| InstallShutdown (owns_agent : bool)
                                    (* process.on('SIGINT' / 'SIGTERM') *)
| Exit (code : Z).                  (* process.exit(code) *)

(** [killExistingNgrok], given how [pkill] ends. *)
Definition killExistingNgrok (pkill : completion unit) : list effect :=
  match pkill with
  | Normal _ => [Pkill; Log "Killed existing ngrok process"; Sleep 500]
  | Throw _ => [Pkill]
  end.

(** An event of the spawned agent that [startNgrok] listens to. *)
Inductive agent_event : Type :=
| AgentError (code msg : string)    (* 'error', with err.code, err.message *)
| AgentStderr (data : string)       (* 'data' on stderr *)
| AgentClose (code : option Z).     (* 'close'; None is a null code *)

(** The recognised failure markers of the agent's diagnostic output. *)
Definition stderr_is_failure (output : string) : bool :=
  Js.includes output "ERR_NGROK"
  || Js.includes output "authentication failed"
  || Js.includes output "error".

(** The three listeners of [startNgrok], on the promise it returned. *)
Definition agent_deliver (p : promise unit) (ev : agent_event) : promise unit :=
  match ev with
  | AgentError code msg =>
      if String.eqb code "ENOENT"
      then reject "ngrok not found. Install from https://ngrok.com/download" p
      else reject ("Failed to start ngrok: " ++ msg) p
  | AgentStderr data =>
      if stderr_is_failure data
      then reject ("ngrok error: " ++ Js.trim data) p
      else p
  | AgentClose code =>
      match code with
      | Some c => if negb (c =? 0)
                  then reject ("ngrok exited with code " ++ Js.show c) p
                  else p
      | None => p
      end
  end.

(** What the outside does while the gateway starts. *)
Record startup_env : Type := mkEnv {
  script_dir : string;              (* __dirname *)
  agent_listing : listing_reply;    (* the reply to checkExistingNgrok *)
  pkill_result : completion unit;   (* how pkill ends *)
  policy_write : completion unit;   (* how fs.writeFileSync ends *)
  spawn_result : completion unit;   (* whether spawn itself throws *)
  agent_events : list agent_event   (* the agent's events, in order, up
                                       to the three-second timer *)
}.

(** [path.join(__dirname, '.ngrok-policy.json')]. *)
Definition policyPath (env : startup_env) : string :=
  script_dir env ++ "/.ngrok-policy.json".

(** The expression of the [deny] rule of [buildTrafficPolicy]; the
    policy is the Google OAuth action followed by that rule, with
    status 403. *)
Definition deny_expression (cfg : config) : string :=
  let allowedDomain :=
    match ngrok_allowedEmailDomain cfg with
    | Some d => Js.or_else d "@gmail.com"
    | None => "@gmail.com"
    end in
  "!actions.ngrok.oauth.identity.email.endsWith('" ++ allowedDomain ++ "')".

Definition ngrok_args (cfg : config) (env : startup_env) : list string :=
  ["http"; "--domain=" ++ ngrok_domain cfg;
   "--traffic-policy-file=" ++ policyPath env;
   Js.show (serverPort cfg)].

(** The three-second timer resolves the promise unless a listener
    rejected it (and cleared the timer) before; [await] then returns
    or throws. *)
Definition after_timer (p : promise unit) : completion unit :=
  match p with
  | Rejected m => Throw m
  | Pending | Resolved _ => Normal tt
  end.

(** [await startNgrok()]: the effects of [startNgrok] and how the
    [await] ends.  An exception in the executor (writing the policy
    file, [spawn] itself) rejects the promise at once. *)
Definition startNgrok (cfg : config) (env : startup_env)
  : list effect * completion unit :=
  let starting := Log ("Starting ngrok tunnel to " ++ ngrok_domain cfg ++ "...") in
  let writing := WritePolicy (policyPath env) (deny_expression cfg) in
  let spawning := SpawnAgent (ngrok_args cfg env) in
  match policy_write env with
  | Throw m => ([starting; writing], Throw m)
  | Normal _ =>
      match spawn_result env with
      | Throw m => ([starting; writing; spawning], Throw m)
      | Normal _ =>
          ([starting; writing; spawning],
           after_timer (fold_left agent_deliver (agent_events env) Pending))
      end
  end.

(** How [main] leaves the process. *)
Inductive final : Type :=
| Serving (owns_agent : bool)   (* listening, shutdown handlers installed *)
| Exited (code : Z).            (* process.exit(code) *)

(** The [catch] block of [main]. *)
Definition main_catch (m : string) : list effect * final :=
  ([LogError ("Error: " ++ m); Exit 1], Exited 1).

(** [main]. *)
Definition main (cfg : config) (env : startup_env) : list effect * final :=
  let listening :=
    [Listen (serverPort cfg);
     Log ("Hoster server running at http://localhost:" ++ Js.show (serverPort cfg));
     QueryAgent] in
  let existing := checkExistingNgrok cfg (agent_listing env) in
  if ex_exists existing
  then
    (listening ++
     [Log ("Reusing existing ngrok tunnel at " ++
           match ex_url existing with Some u => u | None => "undefined" end);
      InstallShutdown false],
     Serving false)%list
  else
    let restart :=
      if ex_hasOtherTunnels existing
      then Log "Found ngrok with different config, restarting..."
           :: killExistingNgrok (pkill_result env)
      else [] in
    let (started, c) := startNgrok cfg env in
    match c with
    | Normal _ =>
        (listening ++ restart ++ started ++
         [Log ("Tunnel active at https://" ++ ngrok_domain cfg);
          InstallShutdown true],
         Serving true)%list
    | Throw m =>
        let (caught, f) := main_catch m in
        (listening ++ restart ++ started ++ caught, f)%list
    end.

(* ================================================================== *)
(** * Process resolver *)
(* ================================================================== *)

(** [s.split(/\s+/)]: the fields between the maximal runs of white
    space.  [in_run] tells that the characters just read belong to a
    run; a run at the start or at the end of [s] leaves an empty first
    or last field, and the empty string is one empty field. *)
Fixpoint split_ws_from (in_run : bool) (s : string) : list string :=
  match s with
  | EmptyString => [EmptyString]
  | String c t =>
      if Js.is_space c
      then if in_run then split_ws_from true t
           else EmptyString :: split_ws_from true t
      else match split_ws_from false t with
           | h :: r => String c h :: r
           | [] => [String c EmptyString]
           end
  end.

Definition split_ws (s : string) : list string := split_ws_from false s.

Definition listen_command (port : Z) : string :=
  "lsof -i :" ++ Js.show port ++ " -P -n | grep LISTEN".

(** [{ name: 'unknown', pid: null }]. *)
Definition unknown_process : ProcessInfo := mkProcessInfo "unknown" None.

(** [arr[i] || null] on an array of strings. *)
Definition field_or_null (parts : list string) (i : nat) : option string :=
  match nth_error parts i with
  | Some p => if Js.truthy p then Some p else None
  | None => None
  end.

(** [arr[i] || d] on an array of strings. *)
Definition field_or (parts : list string) (i : nat) (d : string) : string :=
  match nth_error parts i with
  | Some p => Js.or_else p d
  | None => d
  end.

(** The body of the [try] block of [getProcessInfo]; [Normal None]
    when the block falls through to the last [return]. *)
Definition getProcessInfo_try (execSync : string -> completion string)
           (port : Z) : completion (option ProcessInfo) :=
  output <- execSync (listen_command port) ;;
  let lines := Js.split "010" (Js.trim output) in
  Normal match lines with
         | line :: _ =>
             let parts := split_ws line in
             Some (mkProcessInfo (field_or parts 0 "unknown")
                                 (field_or_null parts 1))
         | [] => None
         end.

(** [getProcessInfo(port)]. *)
Definition getProcessInfo (execSync : string -> completion string)
           (port : Z) : ProcessInfo :=
  match try_catch (getProcessInfo_try execSync port) (fun _ => None) with
  | Some info => info
  | None => unknown_process
  end.

(* ================================================================== *)
(** * Vocabulary of the statements *)
(* ================================================================== *)

(** [sub] occurs in [s]. *)
Definition Occurs (sub s : string) : Prop :=
  exists a b, s = a ++ sub ++ b.

(** [s] is made of decimal digits. *)
Fixpoint all_digits (s : string) : bool :=
  match s with
  | EmptyString => true
  | String c t => Js.is_digit c && all_digits t
  end.

(** [s] does not start with a digit. *)
Definition no_digit_ahead (s : string) : bool :=
  match s with
  | EmptyString => true
  | String c _ => negb (Js.is_digit c)
  end.

(** The subpath of a selection request [/proxy/{P}{sub}]: empty, or a
    slash and the rest of the path. *)
Definition is_subpath (sub : string) : bool :=
  match sub with
  | EmptyString => true
  | String c _ => Ascii.eqb c "/" && Js.no_line_terminator sub
  end.

(** The canonical subpath: [/] stands for an empty one. *)
Definition canonical (sub : string) : string := Js.or_else sub "/".

(** The name-value pair of the selection cookie for port [P], as the
    [Set-Cookie] header of the redirect gives it and as the client
    sends it back. *)
Definition selection_cookie (P : Z) : string := cookie_key ++ Js.show P.

(** The [Cookie] header [h] carries the selection cookie of [P]:
    the pair stands in [h], its value ends where the pair ends, and the
    text before the pair does not already spell the cookie's name. *)
Definition carries_selection (h : string) (P : Z) : Prop :=
  exists pre post,
    h = pre ++ selection_cookie P ++ post
    /\ no_digit_ahead post = true
    /\ (forall a b, pre ++ cookie_key = a ++ cookie_key ++ b -> b = EmptyString).


(** The event is [connect]. *)
Definition is_connect (ev : socket_event) : bool :=
  match ev with SockConnect => true | _ => false end.

Definition is_forward (r : response) : bool :=
  match r with Forward _ _ _ _ => true | _ => false end.

(** An effect of startup that terminates or starts an agent session. *)
Definition is_terminate_or_start (e : effect) : bool :=
  match e with
  | Pkill | SpawnAgent _ => true
  | _ => false
  end.

(** The agent's public URL is an [http] or [https] URL. *)
Definition is_web_url (u : string) : bool :=
  Js.startsWith "https" u || Js.startsWith "http://" u.

(** The reply to a creation request carries, when it carries a public
    URL, an [http] or [https] one. *)
Definition web_reply (r : create_reply) : bool :=
  match r with
  | CreateDoc (Some u) _ _ => is_web_url u || negb (Js.truthy u)
  | _ => true
  end.

(** Every URL of the map begins with [https]. *)
Definition all_https (m : tunnel_map) : Prop :=
  forall p u, In (p, u) m -> Js.startsWith "https" u = true.



(** A configuration and three ways the outside can meet the startup
    of the gateway: the agent already runs the gateway's session; no
    agent runs and the executable is missing; no agent runs and the
    executable cannot be run. *)
Definition sample_config : config :=
  mkConfig 8888 "me.ngrok.dev" (Some "@example.com") [(3000, 3100)]
           [mkCommand "App" "npm run dev"].

Definition gateway_session : tunnel :=
  mkTunnel (Some "http://localhost:8888") (Some "https://me.ngrok.dev").

Definition env_session_running : startup_env :=
  mkEnv "/opt/porthole" (ListingDoc (Some [gateway_session]))
        (Normal tt) (Normal tt) (Normal tt) [].

Definition env_agent_missing : startup_env :=
  mkEnv "/opt/porthole" ListingError (Normal tt) (Normal tt) (Normal tt)
        [AgentError "ENOENT" "spawn ngrok ENOENT"].

Definition env_agent_not_executable : startup_env :=
  mkEnv "/opt/porthole" ListingError (Normal tt) (Normal tt) (Normal tt)
        [AgentError "EACCES" "spawn ngrok EACCES"].

(** The event [ev] does not settle the promise of [startNgrok]. *)
Definition is_quiet (ev : agent_event) : Prop :=
  agent_deliver Pending ev = Pending.

(** The tunnel that [createTunnel(3000)] asks for, as the agent
    lists it once it exists, and another tunnel to the same local
    port that somebody else opened. *)
Definition first_tunnel : tunnel :=
  mkTunnel (Some "http://localhost:3000") (Some "https://porthole-3000.ngrok.io").

Definition other_tunnel : tunnel :=
  mkTunnel (Some "http://localhost:3000") (Some "https://demo.ngrok.io").

(** A tunnel to local port 30000. *)
Definition tunnel_30000 : tunnel :=
  mkTunnel (Some "http://localhost:30000")
           (Some "https://porthole-30000.ngrok.io").

(** The map holds at most one entry under each port. *)
Definition one_entry_per_port (m : tunnel_map) : Prop :=
  forall q, (entries_for q m <= 1)%nat.

(** One call of [createTunnel(3000)] on an agent that lists no tunnel
    and answers the creation request with an [http] URL. *)
Definition http_creation : list (Z * listing_reply * create_reply) :=
  [(3000, ListingDoc (Some []),
    CreateDoc (Some "http://porthole-3000.ngrok.io") false None)].

(** The two objects [killByPort] can return. *)
Definition kill_success (port : Z) : api_result :=
  ok_result ("Killed process(es) on port " ++ Js.show port).

Definition kill_failure (port : Z) (m : string) : api_result :=
  fail_result ("Failed to kill process on port " ++ Js.show port ++ ": " ++ m).

(** The first element of [ts] that satisfies [f] is [t]. *)
Definition first_match {A : Type} (f : A -> bool) (ts : list A) (t : A) : Prop :=
  exists before after,
    ts = (before ++ t :: after)%list
    /\ f t = true
    /\ (forall x, In x before -> f x = false).

(** [s] holds no white space. *)
Fixpoint no_space (s : string) : bool :=
  match s with
  | EmptyString => true
  | String c t => negb (Js.is_space c) && no_space t
  end.

(** Not empty, no white space. *)
Definition is_solid (s : string) : bool := Js.truthy s && no_space s.

(** A visible character of ASCII: the codes 33 to 126. *)
Definition is_visible (c : ascii) : bool :=
  let n := nat_of_ascii c in ((33 <=? n) && (n <=? 126))%nat.

Fixpoint all_visible (s : string) : bool :=
  match s with
  | EmptyString => true
  | String c t => is_visible c && all_visible t
  end.

(** A word, as a column of [lsof] shows one: not empty, made of
    visible characters of ASCII. *)
Definition is_word (s : string) : bool := Js.truthy s && all_visible s.

(** [s] is made of white space that does not end the line: blanks
    and tabs. *)
Fixpoint all_blank (s : string) : bool :=
  match s with
  | EmptyString => true
  | String c t => Js.is_space c && negb (Js.is_line_terminator c) && all_blank t
  end.

(** [s] is empty or starts with white space. *)
Definition space_ahead (s : string) : bool :=
  match s with
  | EmptyString => true
  | String c _ => Js.is_space c
  end.

(** The last character of [s] is not white space. *)
Fixpoint ends_solid (s : string) : bool :=
  match s with
  | EmptyString => false
  | String c EmptyString => negb (Js.is_space c)
  | String _ t => ends_solid t
  end.

(** [s] holds the character [c]. *)
Fixpoint has_char (c : ascii) (s : string) : bool :=
  match s with
  | EmptyString => false
  | String d t => Ascii.eqb d c || has_char c t
  end.

(** [s] holds a decimal digit. *)
Fixpoint has_digit (s : string) : bool :=
  match s with
  | EmptyString => false
  | String c t => Js.is_digit c || has_digit t
  end.

(** The output of [lsof -t]: one PID a line. *)
Fixpoint unlines (lines : list string) : string :=
  match lines with
  | [] => EmptyString
  | l :: r => l ++ String "010" (unlines r)
  end.

(** The range [r] holds the port [p]. *)
Definition holds (p : Z) (r : Z * Z) : bool := (fst r <=? p) && (p <=? snd r).

(** A line of [lsof -i :3000 -P -n | grep LISTEN], and a machine on
    which every command prints it. *)
Definition listen_line : string :=
  "node    1234 user   23u  IPv4 0x1f 0t0  TCP *:3000 (LISTEN)"
  ++ String "010" EmptyString.

Definition node_listens (cmd : string) : completion string :=
  Normal listen_line.

(** A machine on which processes 11, 22 and 33 hold port 3000 and
    process 22 cannot be signalled. *)
Definition second_kill_fails (cmd : string) : completion string :=
  if String.eqb cmd (lsof_command 3000) then Normal (unlines ["11"; "22"; "33"])
  else if String.eqb cmd (kill_command "22")
       then Throw "Command failed: kill -9 22"
       else Normal EmptyString.

(** An event of the agent that does not count as a failure of the
    launch: diagnostic output without a failure marker, and the end of
    the process with status 0 or without a status. *)
Definition quiet_event (ev : agent_event) : bool :=
  match ev with
  | AgentError _ _ => false
  | AgentStderr data => negb (stderr_is_failure data)
  | AgentClose (Some code) => code =? 0
  | AgentClose None => true
  end.

(** No tunnel of the listing is the gateway's own session. *)
Definition all_foreign (cfg : config) (ts : list tunnel) : bool :=
  forallb (fun t => negb (targets_gateway cfg t)) ts.


(** The effect starts an agent. *)
Definition is_spawn (e : effect) : bool :=
  match e with SpawnAgent _ => true | _ => false end.

(** The listed tunnel [t] answers the lookup for [port]: its address
    holds a colon and the digits of the port, and its public URL
    starts with https. *)
Definition lists_port_https (port : Z) (t : tunnel) : Prop :=
  exists addr rest,
    config_addr t = Some addr
    /\ Occurs (":" ++ Js.show port) addr
    /\ public_url t = Some ("https" ++ rest).

(** A listing of the agent: a tunnel to another port, a tunnel to
    port 3000 without https, and the tunnel of [createTunnel(3000)]. *)
Definition three_tunnels : list tunnel :=
  [mkTunnel (Some "http://localhost:4000") (Some "https://four.ngrok.io");
   mkTunnel (Some "http://localhost:3000") (Some "http://plain.ngrok.io");
   mkTunnel (Some "http://localhost:3000")
            (Some "https://porthole-3000.ngrok.io")].

(* ================================================================== *)
(** * Facts about strings *)
(* ================================================================== *)

Lemma append_nil_r (s : string) : s ++ "" = s.
Proof. induction s as [|c s IH]; simpl; [reflexivity | now rewrite IH]. Qed.

Lemma append_assoc (a b c : string) : (a ++ b) ++ c = a ++ (b ++ c).
Proof. induction a as [|x a IH]; simpl; [reflexivity | now rewrite IH]. Qed.

Lemma length_append (a b : string) :
  String.length (a ++ b) = (String.length a + String.length b)%nat.
Proof. induction a as [|x a IH]; simpl; [reflexivity | now rewrite IH]. Qed.

Lemma startsWith_app (p r : string) : Js.startsWith p (p ++ r) = true.
Proof.
  induction p as [|c p IH]; simpl.
  - reflexivity.
  - now rewrite Ascii.eqb_refl, IH.
Qed.

Lemma startsWith_inv (p s : string) :
  Js.startsWith p s = true -> exists r, s = p ++ r.
Proof.
  revert s; induction p as [|c p IH]; intros s H.
  - exists s; reflexivity.
  - destruct s as [|d s]; simpl in H; [discriminate|].
    apply andb_true_iff in H as [Hc Hp].
    apply Ascii.eqb_eq in Hc; subst d.
    destruct (IH _ Hp) as [r ->].
    exists r; reflexivity.
Qed.

Lemma slice_app (p r : string) : Js.slice (String.length p) (p ++ r) = r.
Proof. induction p as [|c p IH]; simpl; [reflexivity | exact IH]. Qed.

Lemma includes_head (s sub : string) :
  Js.startsWith sub s = true -> Js.includes s sub = true.
Proof. intros H. destruct s; simpl; now rewrite H. Qed.

Lemma includes_app (a sub b : string) : Js.includes (a ++ sub ++ b) sub = true.
Proof.
  induction a as [|c a IH]; simpl.
  - apply includes_head, startsWith_app.
  - rewrite IH; apply orb_true_r.
Qed.

Lemma includes_inv (s sub : string) :
  Js.includes s sub = true -> Occurs sub s.
Proof.
  induction s as [|c s IH]; simpl; intros H.
  - rewrite orb_false_r in H.
    destruct (startsWith_inv _ _ H) as [r ->].
    exists EmptyString, r; reflexivity.
  - apply orb_true_iff in H as [H | H].
    + destruct (startsWith_inv _ _ H) as [r ->].
      exists EmptyString, r; reflexivity.
    + destruct (IH H) as (a & b & ->).
      exists (String c a), b; reflexivity.
Qed.

Lemma includes_iff (s sub : string) :
  Js.includes s sub = true <-> Occurs sub s.
Proof.
  split; [apply includes_inv | intros (a & b & ->); apply includes_app].
Qed.

(** Two ways to cut one string: the shorter head is a prefix of the
    longer one. *)
Lemma append_cut (u x y v : string) :
  x ++ y = u ++ v -> (String.length u <= String.length x)%nat ->
  exists b, x = u ++ b.
Proof.
  revert x; induction u as [|c u IH]; intros x E L.
  - exists x; reflexivity.
  - destruct x as [|d x]; simpl in L; [lia|].
    simpl in E; injection E as -> E.
    destruct (IH x E ltac:(lia)) as [b ->].
    exists b; reflexivity.
Qed.

(** ** Digits *)

Lemma uint_all_digits (d : uint) : all_digits (NilEmpty.string_of_uint d) = true.
Proof. induction d; simpl; auto. Qed.

Lemma show_nonneg (n : Z) :
  0 <= n ->
  exists d, d <> Nil /\ Js.show n = NilEmpty.string_of_uint d
            /\ NilZero.string_of_uint d = NilEmpty.string_of_uint d
            /\ Z.of_uint d = n.
Proof.
  intros Hn. unfold Js.show.
  pose proof (DecimalZ.of_to n) as Hz.
  destruct n as [|p|p]; [| |lia].
  - exists (D0 Nil); repeat split; discriminate.
  - simpl in *. exists (Pos.to_uint p).
    assert (Hnil : Pos.to_uint p <> Nil).
    { intros E. rewrite E in Hz. discriminate. }
    repeat split; try assumption.
    + destruct (Pos.to_uint p); [contradiction | reflexivity ..].
    + destruct (Pos.to_uint p); [contradiction | reflexivity ..].
Qed.

Lemma show_all_digits (n : Z) : 0 <= n -> all_digits (Js.show n) = true.
Proof.
  intros Hn. destruct (show_nonneg n Hn) as (d & _ & -> & _ & _).
  apply uint_all_digits.
Qed.

Lemma show_nonempty (n : Z) : 0 <= n -> Js.show n <> EmptyString.
Proof.
  intros Hn E. destruct (show_nonneg n Hn) as (d & Hd & Hs & _ & _).
  rewrite Hs in E. destruct d; simpl in E; (contradiction || discriminate).
Qed.

Lemma parseInt_show (n : Z) : 0 <= n -> Js.parseInt (Js.show n) = Some n.
Proof.
  intros Hn. destruct (show_nonneg n Hn) as (d & Hd & Hs & Hz & Hv).
  unfold Js.parseInt. rewrite Hs, <- Hz, (NilZero.usu d Hd), Hv. reflexivity.
Qed.

Lemma span_digits_app (ds rest : string) :
  all_digits ds = true -> no_digit_ahead rest = true ->
  Js.span_digits (ds ++ rest) = (ds, rest).
Proof.
  intros Hd Hr. induction ds as [|c ds IH].
  - change (EmptyString ++ rest) with rest.
    destruct rest as [|c r]; [reflexivity|].
    cbn [no_digit_ahead] in Hr. apply negb_true_iff in Hr.
    cbn [Js.span_digits]. now rewrite Hr.
  - cbn [all_digits] in Hd. apply andb_true_iff in Hd as [Hc Hd].
    cbn [append Js.span_digits]. rewrite Hc, (IH Hd). reflexivity.
Qed.

(** The pattern [key(\d+)] matches at the head of [key ++ n ++ rest]
    and captures [n]. *)
Lemma match_here_show (key rest : string) (n : Z) :
  0 <= n -> no_digit_ahead rest = true ->
  Js.match_here key (key ++ Js.show n ++ rest) = Some (Js.show n).
Proof.
  intros Hn Hr. unfold Js.match_here.
  rewrite startsWith_app, slice_app.
  rewrite (span_digits_app _ _ (show_all_digits n Hn) Hr).
  destruct (Js.show n) eqn:E; [|reflexivity].
  now apply show_nonempty in E.
Qed.

Lemma match_digits_head (key s ds : string) :
  Js.match_here key s = Some ds -> Js.match_digits key s = Some ds.
Proof. intros H. destruct s; cbn [Js.match_digits]; now rewrite H. Qed.

(** The leftmost match skips a text that does not spell [key]. *)
Lemma match_digits_skip (key pre rest ds : string) :
  (forall a b, pre ++ key = a ++ key ++ b -> b = EmptyString) ->
  Js.match_here key (key ++ rest) = Some ds ->
  Js.match_digits key (pre ++ key ++ rest) = Some ds.
Proof.
  intros Hpre Hm. induction pre as [|c pre IH].
  - now apply match_digits_head.
  - assert (Hno : Js.match_here key (String c pre ++ key ++ rest) = None).
    { unfold Js.match_here.
      destruct (Js.startsWith key (String c pre ++ key ++ rest)) eqn:Es;
        [exfalso | reflexivity].
      apply startsWith_inv in Es as [r Er].
      rewrite <- append_assoc in Er.
      destruct (append_cut key (String c pre ++ key) rest r Er) as [b Eb].
      { rewrite length_append. lia. }
      pose proof (Hpre EmptyString b Eb) as ->.
      rewrite append_nil_r in Eb.
      apply (f_equal String.length) in Eb.
      rewrite length_append in Eb. simpl in Eb. lia. }
    change (Js.match_digits key (String c pre ++ key ++ rest))
      with (match Js.match_here key (String c pre ++ key ++ rest) with
            | Some ds' => Some ds'
            | None => Js.match_digits key (pre ++ key ++ rest)
            end).
    rewrite Hno. apply IH.
    intros a b E. apply (Hpre (String c a) b). simpl. now rewrite E.
Qed.

(* ================================================================== *)
(** * Port scanner: properties *)
(* ================================================================== *)

Section ScannerFacts.

Variable ownPort : Z.
Variable probe : nat -> Z -> bool.
Variable resolver : Z -> ProcessInfo.

Lemma scan_one_some (pos : nat) (port : Z) (s : ServiceInfo) :
  scan_one ownPort probe resolver pos port = Some s ->
  svc_port s = port /\ port <> ownPort /\ probe pos port = true.
Proof.
  unfold scan_one. destruct (port =? ownPort) eqn:E; [discriminate|].
  apply Z.eqb_neq in E.
  destruct (probe pos port); [|discriminate].
  intros [= <-]. auto.
Qed.

Lemma in_filter_non_null {A : Type} (x : A) (l : list (option A)) :
  In x (filter_non_null l) <-> In (Some x) l.
Proof.
  induction l as [|[y|] l IH]; simpl.
  - tauto.
  - rewrite IH. split; intros [H | H]; auto; left; congruence.
  - rewrite IH. split; [auto | intros [H | H]; [discriminate | auto]].
Qed.

Lemma filter_non_null_app {A : Type} (l1 l2 : list (option A)) :
  filter_non_null (l1 ++ l2) = (filter_non_null l1 ++ filter_non_null l2)%list.
Proof.
  induction l1 as [|[y|] l1 IH]; simpl; [reflexivity | now rewrite IH | exact IH].
Qed.

Lemma scan_batch_cons (i : nat) (p : Z) (batch : list Z) :
  scan_batch ownPort probe resolver i (p :: batch)
  = scan_one ownPort probe resolver i p
      :: scan_batch ownPort probe resolver (S i) batch.
Proof. reflexivity. Qed.

Lemma scan_batch_app (i : nat) (a b : list Z) :
  scan_batch ownPort probe resolver i (a ++ b)
  = (scan_batch ownPort probe resolver i a
     ++ scan_batch ownPort probe resolver (i + List.length a) b)%list.
Proof.
  revert i; induction a as [|p a IH]; intros i.
  - simpl. now rewrite Nat.add_0_r.
  - rewrite <- app_comm_cons, !scan_batch_cons, IH. simpl.
    now rewrite Nat.add_succ_r.
Qed.

Lemma scan_batch_excludes (i : nat) (batch : list Z) (s : ServiceInfo) :
  In (Some s) (scan_batch ownPort probe resolver i batch) ->
  svc_port s <> ownPort.
Proof.
  revert i; induction batch as [|p batch IH]; intros i H.
  - destruct H.
  - rewrite scan_batch_cons in H. destruct H as [H | H].
    + apply scan_one_some in H as (-> & Hp & _). exact Hp.
    + exact (IH _ H).
Qed.

(** The loop keeps the own port out of [results]. *)
Lemma scan_loop_excludes (fuel i : nat) (ports : list Z)
      (results : list ServiceInfo) :
  Forall (fun s => svc_port s <> ownPort) results ->
  Forall (fun s => svc_port s <> ownPort)
         (scan_loop ownPort probe resolver fuel i ports results).
Proof.
  revert i results; induction fuel as [|fuel IH]; intros i results H; simpl.
  - exact H.
  - destruct (i <? List.length ports)%nat; [|exact H].
    apply IH. apply Forall_app; split; [exact H|].
    apply Forall_forall. intros s Hs.
    apply in_filter_non_null in Hs.
    exact (scan_batch_excludes _ _ _ Hs).
Qed.

(** The loop, given [length ports - i] iterations, probes every port
    from position [i] on: the fuel of [scanPorts] is enough. *)
Lemma scan_loop_complete (fuel i : nat) (ports : list Z)
      (results : list ServiceInfo) :
  (List.length ports - i <= fuel)%nat ->
  scan_loop ownPort probe resolver fuel i ports results
  = (results
     ++ filter_non_null (scan_batch ownPort probe resolver i (skipn i ports)))%list.
Proof.
  revert i results; induction fuel as [|fuel IH]; intros i results Hf.
  - simpl. rewrite skipn_all2 by lia. simpl. now rewrite app_nil_r.
  - cbn [scan_loop].
    destruct (i <? List.length ports)%nat eqn:Ei.
    + apply Nat.ltb_lt in Ei.
      rewrite IH by (unfold batchSize; lia).
      rewrite <- app_assoc. f_equal.
      rewrite <- filter_non_null_app. f_equal.
      unfold array_slice.
      replace (i + batchSize - i)%nat with batchSize by lia.
      rewrite <- (firstn_skipn batchSize (skipn i ports)) at 2.
      rewrite scan_batch_app, skipn_skipn, (Nat.add_comm batchSize i).
      f_equal.
      destruct (Nat.le_gt_cases batchSize (List.length (skipn i ports)))
        as [Hl | Hl].
      * rewrite firstn_length_le by exact Hl. reflexivity.
      * rewrite (skipn_all2 (n := i + batchSize)) by (rewrite length_skipn in Hl; lia).
        reflexivity.
    + apply Nat.ltb_ge in Ei.
      rewrite skipn_all2 by lia. simpl. now rewrite app_nil_r.
Qed.

(** The batched loop is one pass over the expanded ranges. *)
Lemma scanPorts_one_pass (ranges : list (Z * Z)) :
  scanPorts ownPort probe resolver ranges
  = filter_non_null
      (scan_batch ownPort probe resolver 0 (getPortsToScan ranges)).
Proof.
  unfold scanPorts. rewrite scan_loop_complete by lia. reflexivity.
Qed.

(** One pass keeps the positions whose port is not the gateway's own
    and whose probe succeeded, and reports the port with the name and
    the PID the resolver gives for it. *)
Lemma scan_batch_reports (i : nat) (ports : list Z) :
  filter_non_null (scan_batch ownPort probe resolver i ports)
  = map (fun kp => mkServiceInfo (snd kp) (pi_name (resolver (snd kp)))
                                 (pi_pid (resolver (snd kp))))
        (filter (fun kp => negb (snd kp =? ownPort) && probe (fst kp) (snd kp))
                (combine (seq i (List.length ports)) ports)).
Proof.
  revert i; induction ports as [|p ports IH]; intros i; [reflexivity|].
  rewrite scan_batch_cons.
  cbn [List.length seq combine filter fst snd]. unfold scan_one.
  destruct (p =? ownPort); cbn [negb andb filter_non_null]; [exact (IH (S i))|].
  destruct (probe i p); cbn [filter_non_null map fst snd];
    [f_equal|]; exact (IH (S i)).
Qed.

End ScannerFacts.

(** X1.  [scanPorts] returns, in the order of the expanded ranges and
    through all its batches, exactly one entry for every position of
    the expanded port list whose port is not the gateway's own and
    whose probe succeeded: the port, with the name and the PID the
    resolver gives for that port. *)
Theorem scanPorts_complete :
  forall (ownPort : Z) (probe : nat -> Z -> bool)
         (resolver : Z -> ProcessInfo) (ranges : list (Z * Z)),
    scanPorts ownPort probe resolver ranges
    = map (fun kp => mkServiceInfo (snd kp) (pi_name (resolver (snd kp)))
                                   (pi_pid (resolver (snd kp))))
          (filter (fun kp => negb (snd kp =? ownPort)
                             && probe (fst kp) (snd kp))
                  (combine (seq 0 (List.length (getPortsToScan ranges)))
                           (getPortsToScan ranges))).
Proof.
  intros. rewrite scanPorts_one_pass. apply scan_batch_reports.
Qed.

(** Sixty ports, the gateway's own among them, listeners on the even
    ones: the scan crosses the batch of fifty and reports the even
    ports but the gateway's, in order. *)
Lemma scanPorts_complete_witness :
  map svc_port
      (scanPorts 3010 (fun _ p => Z.even p)
                 (fun p => mkProcessInfo "node" None) [(3000, 3059)])
  = [3000; 3002; 3004; 3006; 3008; 3012; 3014; 3016; 3018; 3020;
     3022; 3024; 3026; 3028; 3030; 3032; 3034; 3036; 3038; 3040;
     3042; 3044; 3046; 3048; 3050; 3052; 3054; 3056; 3058].
Proof.
  rewrite (scanPorts_complete 3010 (fun _ p => Z.even p)
             (fun p => mkProcessInfo "node" None) [(3000, 3059)]).
  reflexivity.
Defined.

(** C3.  Whatever the configured ranges, the outcomes of the probes
    and the answers of the process resolver, no [ServiceInfo] of the
    sequence [scanPorts] returns has the gateway's own port. *)
Theorem scanPorts_never_reports_own_port :
  forall (ownPort : Z) (probe : nat -> Z -> bool)
         (resolver : Z -> ProcessInfo) (ranges : list (Z * Z)),
    Forall (fun s => svc_port s <> ownPort)
           (scanPorts ownPort probe resolver ranges).
Proof.
  intros. unfold scanPorts. apply scan_loop_excludes. constructor.
Qed.

(** The own port lies in a range and answers the probe: its
    neighbours are reported, it is not. *)
Example scanPorts_own_port_in_range :
  map svc_port
      (scanPorts 8888 (fun _ _ => true) (fun _ => mkProcessInfo "node" None)
                 [(8887, 8889)])
  = [8887; 8889].
Proof. reflexivity. Qed.

Lemma scan_batch_closed (ownPort : Z) (resolver : Z -> ProcessInfo)
      (i : nat) (ports : list Z) :
  filter_non_null (scan_batch ownPort (fun _ _ => false) resolver i ports) = [].
Proof.
  revert i; induction ports as [|p ports IH]; intros i; [reflexivity|].
  rewrite scan_batch_cons. unfold scan_one at 1.
  destruct (p =? ownPort); exact (IH (S i)).
Qed.

(** X2.  With no listener on any port the scan returns the empty
    sequence. *)
Theorem scanPorts_no_listener :
  forall (ownPort : Z) (resolver : Z -> ProcessInfo) (ranges : list (Z * Z)),
    scanPorts ownPort (fun _ _ => false) resolver ranges = [].
Proof.
  intros. unfold scanPorts.
  rewrite scan_loop_complete by lia. apply scan_batch_closed.
Qed.

(** The ranges [[3000, 3000]] and a listener on 3000: the scan returns
    exactly one [ServiceInfo], for port 3000. *)
Example scanPorts_single_listener :
  scanPorts 8888 (fun _ _ => true) (fun _ => mkProcessInfo "node" (Some "4242"))
            [(3000, 3000)]
  = [mkServiceInfo 3000 "node" (Some "4242")].
Proof. reflexivity. Qed.

(* ================================================================== *)
(** * Liveness prober: properties *)
(* ================================================================== *)

(** Once [resolved] is set and the promise is settled, later events
    change neither the promise nor the flag, and destroy nothing the
    first event had not destroyed. *)
Lemma socket_settled_stays (events : list socket_event) (st : probe_state)
      (b : bool) :
  resolved st = true -> probe_promise st = Resolved b ->
  let st' := fold_left socket_deliver events st in
  resolved st' = true /\ probe_promise st' = Resolved b
  /\ (destroyed st <= destroyed st')%nat.
Proof.
  revert st; induction events as [|ev events IH]; intros st Hr Hp; simpl.
  - auto.
  - destruct ev; simpl.
    + specialize (IH (on_connect st)). simpl in IH.
      rewrite Hp in IH. simpl in IH.
      destruct (IH eq_refl eq_refl) as (H1 & H2 & H3).
      repeat split; auto; lia.
    + unfold on_timeout. rewrite Hr. exact (IH st Hr Hp).
    + unfold on_error. rewrite Hr. exact (IH st Hr Hp).
Qed.

(** C6.  For a port and a timeout that [net.Socket] accepts, the
    promise of [checkPort] is never rejected: it is pending until the
    socket emits an event, and from the first event on it is resolved
    to [true] if that event is [connect] and to [false] if it is
    [timeout] or [error]; the socket has then been destroyed, whichever
    of the three events it was. *)
Theorem checkPort_resolves_boolean :
  forall (port timeout : Z) (events : list socket_event),
    valid_port port = true -> valid_timeout timeout = true ->
    let st := checkPort port timeout events in
    (forall m, probe_promise st <> Rejected m)
    /\ (events = [] -> probe_promise st = Pending)
    /\ (forall ev rest, events = ev :: rest ->
          probe_promise st = Resolved (is_connect ev)
          /\ (1 <= destroyed st)%nat).
Proof.
  intros port timeout events Hp Ht. unfold checkPort.
  rewrite Hp, Ht. simpl negb. cbv iota.
  assert (H : forall ev rest,
             let st := fold_left socket_deliver (ev :: rest)
                                 (mkProbe false 0 Pending) in
             probe_promise st = Resolved (is_connect ev)
             /\ (1 <= destroyed st)%nat).
  { intros ev rest. cbn [fold_left].
    pose proof (socket_settled_stays rest
                  (socket_deliver (mkProbe false 0 Pending) ev)
                  (is_connect ev)) as Hs.
    destruct ev;
      (specialize (Hs eq_refl eq_refl); cbv zeta in Hs;
       destruct Hs as (_ & H2 & H3); simpl in *; split; [exact H2 | lia]). }
  destruct events as [|ev rest].
  - simpl. split; [discriminate | split; [reflexivity | discriminate]].
  - destruct (H ev rest) as [H1 H2]. split; [|split].
    + intros m. rewrite H1. discriminate.
    + discriminate.
    + intros ev' rest' [= <- <-]. split; [exact H1 | exact H2].
Qed.

Lemma checkPort_resolves_boolean_witness :
  valid_port 3000 = true /\ valid_timeout 100 = true
  /\ probe_promise (checkPort 3000 100 [SockTimeout; SockConnect])
     = Resolved false.
Proof.
  split; [reflexivity | split; [reflexivity |]].
  exact (proj1 (proj2 (proj2
           (checkPort_resolves_boolean 3000 100 [SockTimeout; SockConnect]
              eq_refl eq_refl)) SockTimeout [SockConnect] eq_refl)).
Defined.

(* ================================================================== *)
(** * Process lifecycle controller: properties *)
(* ================================================================== *)

Section LifecycleFacts.

Variable execSync : string -> completion string.




End LifecycleFacts.




Lemma array_get_out_of_bounds {A : Type} (l : list A) (index : Z) :
  index < 0 \/ Z.of_nat (List.length l) <= index -> array_get l index = None.
Proof.
  intros H. unfold array_get.
  destruct (index <? 0) eqn:E; [reflexivity|].
  apply Z.ltb_ge in E. apply nth_error_None. lia.
Qed.

Lemma array_get_in_bounds {A : Type} (l : list A) (index : Z) :
  0 <= index < Z.of_nat (List.length l) ->
  exists x, array_get l index = Some x.
Proof.
  intros H. unfold array_get.
  destruct (index <? 0) eqn:E; [apply Z.ltb_lt in E; lia|].
  destruct (nth_error l (Z.to_nat index)) as [x|] eqn:En; [eauto|].
  apply nth_error_None in En. lia.
Qed.

(** C7, as the specification states it, fails on an entry whose
    command line is empty: index 0 is in bounds, [spawn] throws on the
    empty executable, the [catch] block answers with a failure and no
    process is started. *)
Lemma launchCommand_in_bounds_can_fail :
  0 <= 0 < Z.of_nat (List.length [mkCommand "Blank" ""])
  /\ launchCommand spawn_rejects_empty [mkCommand "Blank" ""] 0
     = (fail_result
          "Failed to start Blank: The argument 'file' cannot be empty. Received ''",
        []).
Proof. split; [simpl; lia | reflexivity]. Qed.

(** C7, amended.  For an index outside [[0, len(quickLaunch))]
    [launchCommand] returns the invalid-index failure and starts no
    process.  For an index in bounds it calls [spawn] on the configured
    command line, split at spaces, detached: if the call returns, the
    result is the success "Started: name" and that one process was
    started; if the call throws, the result is the failure "Failed to
    start name: reason" and no process was started. *)
Theorem launchCommand_result :
  forall (spawn : string -> list string -> completion unit)
         (quickLaunch : list QuickLaunchCommand) (index : Z),
    (index < 0 \/ Z.of_nat (List.length quickLaunch) <= index ->
     launchCommand spawn quickLaunch index
     = (fail_result "Invalid command index", []))
    /\ (0 <= index < Z.of_nat (List.length quickLaunch) ->
        exists cmd,
          array_get quickLaunch index = Some cmd
          /\ let parts := Js.split " " (ql_command cmd) in
             let executable := hd EmptyString parts in
             let args := tl parts in
             match spawn executable args with
             | Normal _ =>
                 launchCommand spawn quickLaunch index
                 = (ok_result ("Started: " ++ ql_name cmd),
                    [mkSpawned executable args true true])
             | Throw m =>
                 launchCommand spawn quickLaunch index
                 = (fail_result ("Failed to start " ++ ql_name cmd ++ ": " ++ m),
                    [])
             end).
Proof.
  intros spawn quickLaunch index. split.
  - intros H. unfold launchCommand.
    now rewrite (array_get_out_of_bounds _ _ H).
  - intros H. destruct (array_get_in_bounds quickLaunch index H) as [cmd Hc].
    exists cmd. split; [exact Hc|].
    unfold launchCommand. rewrite Hc. cbv zeta.
    destruct (spawn _ _); reflexivity.
Qed.

(** An in-bounds launch of [npm run dev] and an out-of-bounds one. *)
Lemma launchCommand_result_witness :
  launchCommand spawn_rejects_empty [mkCommand "App" "npm run dev"] 0
  = (ok_result "Started: App", [mkSpawned "npm" ["run"; "dev"] true true])
  /\ launchCommand spawn_rejects_empty [mkCommand "App" "npm run dev"] 1
     = (fail_result "Invalid command index", []).
Proof.
  split.
  - destruct (proj2 (launchCommand_result spawn_rejects_empty
                       [mkCommand "App" "npm run dev"] 0))
      as (cmd & Hc & H); [simpl; lia|].
    injection Hc as <-. exact H.
  - apply (proj1 (launchCommand_result spawn_rejects_empty
                    [mkCommand "App" "npm run dev"] 1)).
    right. simpl. lia.
Defined.

(* ================================================================== *)
(** * Reverse proxy router: properties *)
(* ================================================================== *)

(** Only two routes of the handler forward: the canonical prefix
    [/p] and the bare paths, both after every route of the API and the
    selection route have declined the request, and both to the port of
    the cookie. *)
Lemma handle_forward_inv (req : request) (port : Z) (path method host : string) :
  handle req = Forward port path method host ->
  match_proxy (req_pathname req) = None
  /\ truthy_port (cookie_target (req_cookie req)) = Some port
  /\ method = req_method req
  /\ host = "localhost:" ++ Js.show port
  /\ ((Js.startsWith "/p/" (req_pathname req) || String.eqb (req_pathname req) "/p"
       = true
       /\ path = canonical (Js.slice 2 (req_pathname req)) ++ req_search req)
      \/ (Js.startsWith "/p/" (req_pathname req) || String.eqb (req_pathname req) "/p"
          = false
          /\ Js.startsWith "/api/" (req_pathname req) = false
          /\ String.eqb (req_pathname req) "/" = false
          /\ path = req_pathname req ++ req_search req)).
Proof.
  unfold handle.
  destruct (api_routes req) as [r|] eqn:Ea.
  { intros ->. exfalso. revert Ea. unfold api_routes.
    repeat match goal with
           | |- context [if ?a then _ else _] => destruct a
           | |- context [route_number ?k ?p] => destruct (route_number k p)
           end; discriminate. }
  clear Ea. unfold proxy_routes.
  destruct (match_proxy (req_pathname req)) as [[ds sub]|]; [discriminate|].
  destruct (Js.startsWith "/p/" (req_pathname req) || String.eqb (req_pathname req) "/p")
    eqn:Ep.
  - destruct (truthy_port (cookie_target (req_cookie req))) as [t|] eqn:Et;
      [|discriminate].
    unfold forward_to. destruct (t <=? 65535); [|discriminate].
    intros [= <- <- <- <-].
    repeat split. left. split; reflexivity.
  - destruct (Js.startsWith "/api/" (req_pathname req)) eqn:Ea; simpl.
    { destruct (String.eqb (req_pathname req) "/" && String.eqb (req_method req) "GET");
        discriminate. }
    destruct (String.eqb (req_pathname req) "/") eqn:Er; simpl.
    { destruct (String.eqb (req_method req) "GET"); discriminate. }
    destruct (truthy_port (cookie_target (req_cookie req))) as [t|] eqn:Et.
    + unfold forward_to. destruct (t <=? 65535); [|discriminate].
      intros [= <- <- <- <-].
      repeat split. right. repeat split.
    + destruct (String.eqb (req_method req) "GET"); discriminate.
Qed.

(** C10.  A request whose path starts with [/api/] or is [/] is not
    forwarded, whatever its method, its query and its cookies: the
    handler answers it itself (a route of the API, the dashboard or
    the 404 page). *)
Theorem api_and_root_never_forwarded :
  forall (req : request),
    Js.startsWith "/api/" (req_pathname req) = true \/ req_pathname req = "/" ->
    is_forward (handle req) = false.
Proof.
  intros req H.
  destruct (handle req) as [| | | | | | | | |port path method host| | |] eqn:Eh;
    try reflexivity.
  exfalso.
  apply handle_forward_inv in Eh as (_ & _ & _ & _ & [(Hp & _) | (_ & Ha & Hr & _)]).
  - destruct H as [H | H].
    + apply startsWith_inv in H as [r Hr]. rewrite Hr in Hp.
      simpl in Hp. discriminate.
    + rewrite H in Hp. discriminate.
  - destruct H as [H | H]; [congruence|].
    rewrite H in Hr. discriminate.
Qed.

Lemma api_and_root_never_forwarded_witness :
  handle (mkRequest "GET" "/api/ports" "" (Some "porthole_proxy_port=3000"))
  = RunScan
  /\ is_forward
       (handle (mkRequest "DELETE" "/api/kill/3000" ""
                          (Some "porthole_proxy_port=3000"))) = false
  /\ is_forward
       (handle (mkRequest "POST" "/" "" (Some "porthole_proxy_port=3000")))
     = false.
Proof.
  split; [reflexivity | split].
  - apply api_and_root_never_forwarded. left. reflexivity.
  - apply api_and_root_never_forwarded. right. reflexivity.
Defined.

(** X3.  A request without a [Cookie] header is never forwarded:
    under [/p] it is answered "No proxy target set", elsewhere by the
    routes of the gateway itself. *)
Theorem no_cookie_never_forwarded :
  forall (req : request),
    req_cookie req = None -> is_forward (handle req) = false.
Proof.
  intros req Hc.
  destruct (handle req) as [| | | | | | | | |port path method host| | |] eqn:Eh;
    try reflexivity.
  apply handle_forward_inv in Eh as (_ & Ht & _).
  rewrite Hc in Ht. discriminate.
Qed.

Lemma no_cookie_never_forwarded_witness :
  handle (mkRequest "GET" "/p/index.html" "" None) = NoProxyTarget
  /\ is_forward (handle (mkRequest "GET" "/favicon.ico" "" None)) = false.
Proof.
  split; [reflexivity|].
  apply no_cookie_never_forwarded. reflexivity.
Defined.

Lemma startsWith_weaken (a b s : string) :
  Js.startsWith (a ++ b) s = true -> Js.startsWith a s = true.
Proof.
  intros H. apply startsWith_inv in H as [r ->].
  rewrite append_assoc. apply startsWith_app.
Qed.

(** A path outside [/api/] is declined by every route of the API. *)
Lemma api_routes_none (req : request) :
  Js.startsWith "/api/" (req_pathname req) = false -> api_routes req = None.
Proof.
  intros H. unfold api_routes.
  repeat match goal with
         | |- context [String.eqb (req_pathname req) ?l] =>
             destruct (String.eqb_spec (req_pathname req) l) as [E | _];
             [rewrite E in H; discriminate |]
         | |- context [Js.startsWith ?l (req_pathname req)] =>
             destruct (Js.startsWith l (req_pathname req)) eqn:E;
             [apply (startsWith_weaken "/api/") in E; congruence | clear E]
         end.
  reflexivity.
Qed.

Lemma is_subpath_no_digit (sub : string) :
  is_subpath sub = true -> no_digit_ahead sub = true.
Proof.
  destruct sub as [|c r]; [reflexivity|]. simpl.
  intros H. apply andb_true_iff in H as [H _].
  apply Ascii.eqb_eq in H. subst c. reflexivity.
Qed.

(** The pattern of the selection route on [/proxy/{P}{sub}]. *)
Lemma match_proxy_selection (P : Z) (sub : string) :
  0 <= P -> is_subpath sub = true ->
  match_proxy ("/proxy/" ++ Js.show P ++ sub)
  = Some (Js.show P, match sub with EmptyString => None | _ => Some sub end).
Proof.
  intros HP Hsub. unfold match_proxy.
  rewrite startsWith_app.
  change 7%nat with (String.length "/proxy/"). rewrite slice_app.
  rewrite (span_digits_app _ _ (show_all_digits P HP) (is_subpath_no_digit _ Hsub)).
  pose proof (show_nonempty P HP) as Hne.
  destruct (Js.show P) as [|d ds]; [contradiction|].
  destruct sub as [|x r]; [reflexivity|].
  unfold is_subpath in Hsub. rewrite Hsub. reflexivity.
Qed.

(** The selection route on [/proxy/{P}{sub}]. *)
Lemma handle_selection (P : Z) (sub q m : string) (c : option string) :
  0 <= P -> is_subpath sub = true ->
  handle (mkRequest m ("/proxy/" ++ Js.show P ++ sub) q c)
  = Redirect (selection_cookie P ++ "; Path=/; SameSite=Lax")
             ("/p" ++ canonical sub ++ q).
Proof.
  intros HP Hsub. unfold handle.
  rewrite api_routes_none by reflexivity.
  unfold proxy_routes. cbn [req_pathname req_search].
  rewrite (match_proxy_selection P sub HP Hsub), (parseInt_show P HP).
  unfold selection_cookie, Js.show_number. rewrite append_assoc.
  destruct sub; reflexivity.
Qed.

(** The cookie header that carries the selection cookie of [P] is
    read as [P]. *)
Lemma cookie_target_carried (h : string) (P : Z) :
  0 <= P -> carries_selection h P -> cookie_target (Some h) = Some P.
Proof.
  intros HP (pre & post & -> & Hpost & Hpre).
  unfold cookie_target, selection_cookie.
  rewrite append_assoc.
  rewrite (match_digits_skip cookie_key pre (Js.show P ++ post) (Js.show P) Hpre)
    by (apply match_here_show; assumption).
  apply parseInt_show. exact HP.
Qed.








(** A cookie header in which other cookies stand before the
    selection cookie is read the same way. *)
Example cookie_among_others :
  cookie_target (Some "theme=dark; porthole_proxy_port=3000; lang=en")
  = Some 3000.
Proof. reflexivity. Qed.

(* ================================================================== *)
(** * Startup reconciliation: properties *)
(* ================================================================== *)

Lemma find_exists {A : Type} (f : A -> bool) (l : list A) (x : A) :
  In x l -> f x = true -> exists y, find f l = Some y.
Proof.
  intros Hin Hf. destruct (find f l) as [y|] eqn:E; [eauto|].
  now rewrite (find_none f l E x Hin) in Hf.
Qed.

Lemma opt_includes_iff (o : option string) (sub : string) :
  opt_includes o sub = true <-> exists s, o = Some s /\ Occurs sub s.
Proof.
  destruct o as [s|]; simpl.
  - rewrite includes_iff. split; [eauto | intros (s' & [= <-] & H); exact H].
  - split; [discriminate | intros (s' & [=] & _)].
Qed.

(** The gateway's session is reused: what [main] does then. *)
Lemma main_reuse (cfg : config) (env : startup_env) (u : option string) :
  checkExistingNgrok cfg (agent_listing env) = mkExisting true u false ->
  main cfg env
  = ([Listen (serverPort cfg);
      Log ("Hoster server running at http://localhost:"
           ++ Js.show (serverPort cfg));
      QueryAgent;
      Log ("Reusing existing ngrok tunnel at "
           ++ match u with Some v => v | None => "undefined" end);
      InstallShutdown false],
     Serving false).
Proof. intros H. unfold main. rewrite H. reflexivity. Qed.

(** C8.  When the agent's listing holds a session whose address
    names the gateway's port and whose public URL names the configured
    domain, startup queries the agent, logs that it reuses such a
    session and installs the shutdown handlers: among its effects there
    is no termination of an agent ([pkill]) and no start of one
    ([spawn]), and the gateway is left serving without an agent of its
    own. *)
Theorem startup_reuses_matching_session :
  forall (cfg : config) (env : startup_env) (ts : list tunnel) (t : tunnel)
         (addr u : string),
    agent_listing env = ListingDoc (Some ts) ->
    In t ts ->
    config_addr t = Some addr ->
    Occurs (":" ++ Js.show (serverPort cfg)) addr ->
    public_url t = Some u ->
    Occurs (ngrok_domain cfg) u ->
    exists u',
      Occurs (ngrok_domain cfg) u'
      /\ main cfg env
         = ([Listen (serverPort cfg);
             Log ("Hoster server running at http://localhost:"
                  ++ Js.show (serverPort cfg));
             QueryAgent;
             Log ("Reusing existing ngrok tunnel at " ++ u');
             InstallShutdown false],
            Serving false)
      /\ filter is_terminate_or_start (fst (main cfg env)) = [].
Proof.
  intros cfg env ts t addr u Hl Hin Ha Hoa Hu Hou.
  assert (Ht : targets_gateway cfg t = true).
  { unfold targets_gateway. apply andb_true_iff. split.
    - apply opt_includes_iff. eauto.
    - apply opt_includes_iff. eauto. }
  destruct (find_exists _ _ _ Hin Ht) as [t' Hf].
  pose proof (find_some _ _ Hf) as [_ Ht'].
  unfold targets_gateway in Ht'. apply andb_true_iff in Ht' as [_ Hu'].
  apply opt_includes_iff in Hu' as (u' & Eu' & Hou').
  assert (Hm := main_reuse cfg env (Some u')).
  rewrite Hl in Hm. simpl in Hm. rewrite Hf, Eu' in Hm.
  specialize (Hm eq_refl).
  exists u'. split; [exact Hou' | split; [exact Hm|]].
  rewrite Hm. reflexivity.
Qed.

Lemma startup_reuses_matching_session_witness :
  main sample_config env_session_running
  = ([Listen 8888;
      Log "Hoster server running at http://localhost:8888";
      QueryAgent;
      Log "Reusing existing ngrok tunnel at https://me.ngrok.dev";
      InstallShutdown false],
     Serving false)
  /\ filter is_terminate_or_start (fst (main sample_config env_session_running))
     = [].
Proof.
  destruct (startup_reuses_matching_session
              sample_config env_session_running [gateway_session]
              gateway_session "http://localhost:8888" "https://me.ngrok.dev"
              eq_refl (or_introl eq_refl) eq_refl
              (ex_intro _ "http://localhost"
                 (ex_intro _ EmptyString eq_refl))
              eq_refl
              (ex_intro _ "https://" (ex_intro _ EmptyString eq_refl)))
    as (u' & _ & _ & Hnone).
  split; [reflexivity | exact Hnone].
Defined.

(** A promise that a listener rejected stays rejected. *)
Lemma agent_rejected_stays (events : list agent_event) (m : string) :
  fold_left agent_deliver events (Rejected m) = Rejected m.
Proof.
  induction events as [|ev events IH]; [reflexivity|].
  simpl. replace (agent_deliver (Rejected m) ev) with (@Rejected unit m);
    [exact IH|].
  destruct ev as [code msg | data | [c|]]; simpl;
    repeat match goal with
           | |- context [if ?b then _ else _] => destruct b
           end; reflexivity.
Qed.

(** Events that settle nothing leave the promise pending. *)
Lemma agent_quiet_pending (quiet : list agent_event) :
  Forall is_quiet quiet -> fold_left agent_deliver quiet Pending = Pending.
Proof.
  induction 1 as [|ev quiet Hq _ IH]; [reflexivity|].
  simpl. unfold is_quiet in Hq. now rewrite Hq.
Qed.

(** The first event that rejects decides how [await startNgrok()]
    ends. *)
Lemma startNgrok_first_failure (cfg : config) (env : startup_env)
      (quiet rest : list agent_event) (ev : agent_event) (m : string) :
  policy_write env = Normal tt -> spawn_result env = Normal tt ->
  agent_events env = (quiet ++ ev :: rest)%list ->
  Forall is_quiet quiet ->
  agent_deliver Pending ev = Rejected m ->
  snd (startNgrok cfg env) = Throw m.
Proof.
  intros Hw Hs He Hq Hev. unfold startNgrok.
  rewrite Hw, Hs, He. simpl.
  rewrite fold_left_app. simpl.
  rewrite (agent_quiet_pending quiet Hq), Hev, agent_rejected_stays.
  reflexivity.
Qed.

(** C1, as the specification states it, fails when the agent's
    executable exists but cannot be run: the launch fails with
    [EACCES], not [ENOENT], and the gateway logs the failure and exits
    with status 1 instead of serving without a tunnel. *)
Lemma startup_exits_on_other_launch_failure :
  snd (startNgrok sample_config env_agent_not_executable)
  = Throw "Failed to start ngrok: spawn ngrok EACCES"
  /\ main sample_config env_agent_not_executable
     = ([Listen 8888;
         Log "Hoster server running at http://localhost:8888";
         QueryAgent;
         Log "Starting ngrok tunnel to me.ngrok.dev...";
         WritePolicy
           "/opt/porthole/.ngrok-policy.json"
           "!actions.ngrok.oauth.identity.email.endsWith('@example.com')";
         SpawnAgent
           ["http"; "--domain=me.ngrok.dev";
            "--traffic-policy-file=/opt/porthole/.ngrok-policy.json";
            "8888"];
         LogError "Error: Failed to start ngrok: spawn ngrok EACCES";
         Exit 1],
        Exited 1).
Proof. split; reflexivity. Qed.

(** C1, amended.  When startup does not reuse a session, every
    failure of the launch that [startNgrok] reports is fatal: [main]
    logs "Error: " and the reason and exits with status 1, and the
    gateway does not go on serving.  The reason is the first failure
    among the agent's events before the three-second timer; it is
    "ngrok not found. Install from https://ngrok.com/download" when the
    executable is missing and "Failed to start ngrok: " and the
    system's message for any other error of the launch.  A launch that
    reports no failure leaves the gateway serving with the agent. *)
Theorem launch_failure_aborts_startup :
  forall (cfg : config) (env : startup_env),
    ex_exists (checkExistingNgrok cfg (agent_listing env)) = false ->
    (forall m, snd (startNgrok cfg env) = Throw m ->
       snd (main cfg env) = Exited 1
       /\ exists before,
            fst (main cfg env)
            = (before ++ [LogError ("Error: " ++ m); Exit 1])%list)
    /\ (snd (startNgrok cfg env) = Normal tt ->
        snd (main cfg env) = Serving true)
    /\ (forall quiet ev rest m,
          policy_write env = Normal tt -> spawn_result env = Normal tt ->
          agent_events env = (quiet ++ ev :: rest)%list ->
          Forall is_quiet quiet ->
          agent_deliver Pending ev = Rejected m ->
          snd (startNgrok cfg env) = Throw m)
    /\ (forall msg,
          agent_deliver Pending (AgentError "ENOENT" msg)
          = Rejected "ngrok not found. Install from https://ngrok.com/download")
    /\ (forall code msg, code <> "ENOENT" ->
          agent_deliver Pending (AgentError code msg)
          = Rejected ("Failed to start ngrok: " ++ msg)).
Proof.
  intros cfg env Hex. split; [|split; [|split; [|split]]].
  - intros m Hm. unfold main. rewrite Hex.
    destruct (startNgrok cfg env) as [started c]. simpl in Hm. subst c.
    simpl. split; [reflexivity|].
    eexists. rewrite !app_comm_cons, !app_assoc. reflexivity.
  - intros Hn. unfold main. rewrite Hex.
    destruct (startNgrok cfg env) as [started c]. simpl in Hn. subst c.
    reflexivity.
  - intros quiet ev rest m. apply startNgrok_first_failure.
  - reflexivity.
  - intros code msg Hc. simpl.
    destruct (String.eqb_spec code "ENOENT"); [contradiction | reflexivity].
Qed.

Lemma launch_failure_aborts_startup_witness :
  ex_exists (checkExistingNgrok sample_config (agent_listing env_agent_missing))
  = false
  /\ snd (startNgrok sample_config env_agent_missing)
     = Throw "ngrok not found. Install from https://ngrok.com/download"
  /\ snd (main sample_config env_agent_missing) = Exited 1.
Proof.
  split; [reflexivity | split; [reflexivity|]].
  exact (proj1 (proj1 (launch_failure_aborts_startup
                         sample_config env_agent_missing eq_refl)
                  "ngrok not found. Install from https://ngrok.com/download"
                  eq_refl)).
Defined.

(* ================================================================== *)
(** * Per-port tunnels: properties *)
(* ================================================================== *)

(** ** The map [activeTunnels] *)

Lemma map_get_set (p : Z) (u : string) (m : tunnel_map) :
  map_get p (map_set p u m) = Some u.
Proof.
  unfold map_get. induction m as [|[p' v] m IH]; simpl.
  - now rewrite Z.eqb_refl.
  - destruct (p' =? p) eqn:E; simpl.
    + now rewrite Z.eqb_refl.
    + now rewrite E.
Qed.

(** Setting a key to the value it has changes nothing. *)
Lemma map_set_same (p : Z) (u : string) (m : tunnel_map) :
  map_get p m = Some u -> map_set p u m = m.
Proof.
  unfold map_get. induction m as [|[p' v] m IH]; simpl; [discriminate|].
  destruct (p' =? p) eqn:E; simpl.
  - intros [= <-]. apply Z.eqb_eq in E. now subst p'.
  - intros H. now rewrite (IH H).
Qed.

Lemma map_set_in (p q : Z) (u v : string) (m : tunnel_map) :
  In (q, v) (map_set p u m) -> (q, v) = (p, u) \/ In (q, v) m.
Proof.
  induction m as [|[p' w] m IH]; simpl.
  - intros [H | []]. left. now symmetry.
  - destruct (p' =? p); simpl.
    + intros [H | H]; [left; now symmetry | right; right; exact H].
    + intros [H | H]; [right; left; exact H|].
      destruct (IH H); [left | right; right]; assumption.
Qed.

Lemma entries_for_set_other (p q : Z) (u : string) (m : tunnel_map) :
  p <> q -> entries_for q (map_set p u m) = entries_for q m.
Proof.
  intros Hpq. unfold entries_for.
  induction m as [|[p' v] m IH]; simpl.
  - apply Z.eqb_neq in Hpq. now rewrite Hpq.
  - destruct (p' =? p) eqn:E; simpl.
    + apply Z.eqb_eq in E. subst p'.
      apply Z.eqb_neq in Hpq. now rewrite Hpq.
    + destruct (p' =? q); simpl; now rewrite IH.
Qed.

Lemma entries_for_set_same (p : Z) (u : string) (m : tunnel_map) :
  entries_for p (map_set p u m) = Nat.max 1 (entries_for p m).
Proof.
  unfold entries_for. induction m as [|[p' v] m IH]; simpl.
  - now rewrite Z.eqb_refl.
  - destruct (p' =? p) eqn:E; simpl.
    + rewrite Z.eqb_refl. simpl. lia.
    + rewrite E. exact IH.
Qed.

Lemma map_set_one_entry (p : Z) (u : string) (m : tunnel_map) :
  one_entry_per_port m -> one_entry_per_port (map_set p u m).
Proof.
  intros H q. destruct (Z.eq_dec p q) as [<- | Hpq].
  - rewrite entries_for_set_same. specialize (H p). lia.
  - rewrite entries_for_set_other by exact Hpq. apply H.
Qed.

(** ** What one call does to the map *)

Lemma createTunnel_map (port : Z) (listing : listing_reply)
      (creation : create_reply) (m : tunnel_map) :
  let r := fst (fst (createTunnel port listing creation m)) in
  let m' := snd (fst (createTunnel port listing creation m)) in
  (url r = None /\ m' = m)
  \/ (exists u, success r = true /\ url r = Some u /\ m' = map_set port u m
                /\ (getNgrokTunnelUrl port listing = Some u
                    \/ exists pu e msg,
                         creation = CreateDoc (Some pu) e msg
                         /\ Js.truthy pu = true /\ u = prefer_https pu)).
Proof.
  unfold createTunnel.
  destruct (getNgrokTunnelUrl port listing) as [existingUrl|] eqn:Eg; simpl.
  - right. exists existingUrl. auto.
  - destruct creation as [msg | | msg | [[|c r]|] e msg]; simpl;
      try (left; split; reflexivity).
    + destruct e; left; split; reflexivity.
    + right. eexists. repeat split. right.
      exists (String c r), e, msg. repeat split.
    + destruct e; left; split; reflexivity.
Qed.

Lemma createTunnel_calls_one_entry
      (calls : list (Z * listing_reply * create_reply)) (m : tunnel_map) :
  one_entry_per_port m -> one_entry_per_port (createTunnel_calls calls m).
Proof.
  revert m; induction calls as [|[[port listing] creation] calls IH];
    intros m Hm; simpl; [exact Hm|].
  apply IH.
  destruct (createTunnel_map port listing creation m)
    as [[_ ->] | (u & _ & _ & -> & _)];
    [exact Hm | now apply map_set_one_entry].
Qed.

(** ** The lookup *)

Lemma find_first_match {A : Type} (f : A -> bool) (ts : list A) (t : A) :
  first_match f ts t -> find f ts = Some t.
Proof.
  intros (before & after & -> & Ht & Hb).
  induction before as [|x before IH]; simpl.
  - now rewrite Ht.
  - rewrite (Hb x (or_introl eq_refl)). apply IH.
    intros y Hy. apply Hb. now right.
Qed.

Lemma startsWith_truthy (p s : string) :
  Js.startsWith p s = true -> Js.truthy p = true -> Js.truthy s = true.
Proof. destruct p, s; simpl; congruence. Qed.

(** The lookup answers with the public URL of the first listed tunnel
    that matches. *)
Lemma getNgrokTunnelUrl_first_match (port : Z) (ts : list tunnel)
      (t : tunnel) (u : string) :
  first_match (targets_port_https port) ts t -> public_url t = Some u ->
  getNgrokTunnelUrl port (ListingDoc (Some ts)) = Some u.
Proof.
  intros Hf Hu. cbn [getNgrokTunnelUrl]. rewrite (find_first_match _ _ _ Hf).
  destruct Hf as (_ & _ & _ & Ht & _).
  unfold targets_port_https in Ht. apply andb_true_iff in Ht as [_ Hs].
  rewrite Hu in Hs |- *. unfold opt_startsWith in Hs. unfold Js.truthy_opt.
  now rewrite (startsWith_truthy _ _ Hs eq_refl).
Qed.

(** A URL the lookup answers with begins with [https]. *)
Lemma getNgrokTunnelUrl_https (port : Z) (listing : listing_reply) (u : string) :
  getNgrokTunnelUrl port listing = Some u -> Js.startsWith "https" u = true.
Proof.
  destruct listing as [| | | [ts|]]; cbn [getNgrokTunnelUrl]; try discriminate.
  destruct (find (targets_port_https port) ts) as [t|] eqn:Ef; [|discriminate].
  apply find_some in Ef as [_ Ht].
  unfold targets_port_https in Ht. apply andb_true_iff in Ht as [_ Hs].
  unfold opt_startsWith in Hs. unfold Js.truthy_opt.
  destruct (public_url t) as [v|]; [|discriminate].
  destruct (Js.truthy v); [|discriminate].
  now intros [= <-].
Qed.

(** X4.  The lookup tests whether the address contains the text
    [:P], not whether the tunnel goes to port [P]: a listed tunnel
    whose address holds a colon and the digits of [P], whatever
    precedes and whatever follows them, further digits included,
    answers the lookup for [P] when its public URL starts with https
    and it is listed first.  So a tunnel to port 30000 answers the
    lookup for port 3000. *)
Theorem lookup_matches_port_prefix :
  forall (P : Z) (before more u : string) (rest : list tunnel),
    Js.startsWith "https" u = true ->
    getNgrokTunnelUrl P
      (ListingDoc
         (Some (mkTunnel (Some (before ++ ":" ++ Js.show P ++ more)) (Some u)
                :: rest)))
    = Some u.
Proof.
  intros P before more u rest Hu.
  assert (Ht : targets_port_https P
                 (mkTunnel (Some (before ++ ":" ++ Js.show P ++ more)) (Some u))
               = true).
  { apply andb_true_iff. split; [|exact Hu].
    exact (includes_app before (":" ++ Js.show P) more). }
  unfold getNgrokTunnelUrl, find. rewrite Ht.
  cbn [public_url Js.truthy_opt].
  now rewrite (startsWith_truthy "https" u Hu eq_refl).
Qed.

Lemma lookup_matches_port_prefix_witness :
  getNgrokTunnelUrl 3000 (ListingDoc (Some [tunnel_30000]))
  = Some "https://porthole-30000.ngrok.io".
Proof.
  exact (lookup_matches_port_prefix 3000 "http://localhost" "0"
           "https://porthole-30000.ngrok.io" [] eq_refl).
Defined.

(** C2, as the specification states it, fails when the agent lists,
    before the tunnel of the first call, another tunnel to the same
    local port: the first call creates and records
    [https://porthole-3000.ngrok.io]; on the second call the agent
    reports that tunnel as existing, after [other_tunnel]; the second
    call returns and records the URL of [other_tunnel]. *)
Lemma createTunnel_twice_can_differ :
  createTunnel 3000 (ListingDoc (Some []))
               (CreateDoc (Some "https://porthole-3000.ngrok.io") false None) []
  = (mkResult true (Some "https://porthole-3000.ngrok.io") None,
     [(3000, "https://porthole-3000.ngrok.io")],
     [GetTunnels;
      PostTunnel "http://localhost:3000" "http" "porthole-3000" "porthole-3000"])
  /\ In first_tunnel [other_tunnel; first_tunnel]
  /\ createTunnel 3000 (ListingDoc (Some [other_tunnel; first_tunnel]))
                  CreateTimeout [(3000, "https://porthole-3000.ngrok.io")]
     = (mkResult true (Some "https://demo.ngrok.io") (Some "Tunnel already exists"),
        [(3000, "https://demo.ngrok.io")],
        [GetTunnels]).
Proof.
  split; [reflexivity | split; [right; left; reflexivity | reflexivity]].
Qed.

(** The address [createTunnel(P)] asks the agent to forward to. *)
Lemma requested_address_targets (P : Z) (u : string) :
  Js.startsWith "https" u = true ->
  targets_port_https P (mkTunnel (Some ("http://localhost:" ++ Js.show P)) (Some u))
  = true.
Proof.
  intros Hu. unfold targets_port_https. cbn [config_addr public_url].
  apply andb_true_iff. split; [|exact Hu].
  apply opt_includes_iff. eexists. split; [reflexivity|].
  exists "http://localhost", EmptyString.
  now rewrite append_nil_r.
Qed.

(** C2, amended.  When a call of [createTunnel(P)] has returned the
    URL [u], [u] begins with [https], and on the next call for [P] the
    agent lists the tunnel of the first call (the address
    [http://localhost:P] that the first call asked for, the public URL
    [u]) with no tunnel before it whose address contains [:P] and whose
    public URL begins with [https], the next call returns [u] again,
    with the message "Tunnel already exists"; it sends the listing
    request only, no creation request, and leaves [activeTunnels] as
    the first call left it, with [u] under [P].  After any number of
    calls, for any ports and whatever the agent replies,
    [activeTunnels] holds at most one entry for each port. *)
Theorem createTunnel_twice :
  forall (P : Z) (listing1 : listing_reply) (creation1 creation2 : create_reply)
         (m0 : tunnel_map) (u : string) (before after : list tunnel),
    url (fst (fst (createTunnel P listing1 creation1 m0))) = Some u ->
    Js.startsWith "https" u = true ->
    (forall x, In x before -> targets_port_https P x = false) ->
    let m1 := snd (fst (createTunnel P listing1 creation1 m0)) in
    let t := mkTunnel (Some ("http://localhost:" ++ Js.show P)) (Some u) in
    createTunnel P (ListingDoc (Some (before ++ t :: after)%list)) creation2 m1
    = (mkResult true (Some u) (Some "Tunnel already exists"), m1, [GetTunnels])
    /\ map_get P m1 = Some u
    /\ forall calls, one_entry_per_port (createTunnel_calls calls []).
Proof.
  intros P listing1 creation1 creation2 m0 u before after Hu Hs Hb m1 t.
  assert (Hget : map_get P m1 = Some u).
  { subst m1.
    destruct (createTunnel_map P listing1 creation1 m0)
      as [[Hn _] | (u' & _ & Hu' & -> & _)].
    - rewrite Hn in Hu. discriminate.
    - rewrite Hu' in Hu. injection Hu as ->. apply map_get_set. }
  assert (Hf : first_match (targets_port_https P) (before ++ t :: after)%list t).
  { exists before, after. split; [reflexivity | split; [|exact Hb]].
    now apply requested_address_targets. }
  split; [|split].
  - unfold createTunnel.
    rewrite (getNgrokTunnelUrl_first_match P _ t u Hf eq_refl).
    now rewrite (map_set_same P u m1 Hget).
  - exact Hget.
  - intros calls. apply createTunnel_calls_one_entry.
    intros q. unfold entries_for. simpl. lia.
Qed.

Lemma createTunnel_twice_witness :
  createTunnel 3000 (ListingDoc (Some [gateway_session; first_tunnel]))
               CreateTimeout [(3000, "https://porthole-3000.ngrok.io")]
  = (mkResult true (Some "https://porthole-3000.ngrok.io")
              (Some "Tunnel already exists"),
     [(3000, "https://porthole-3000.ngrok.io")],
     [GetTunnels]).
Proof.
  refine (proj1 (createTunnel_twice 3000 (ListingDoc (Some []))
                   (CreateDoc (Some "https://porthole-3000.ngrok.io") false None)
                   CreateTimeout [] "https://porthole-3000.ngrok.io"
                   [gateway_session] [] eq_refl eq_refl _)).
  intros x [<- | []]. reflexivity.
Defined.

(** ** Secure URLs *)

(** An [http] URL is rewritten to the [https] one, an [https] URL is
    kept. *)
Lemma prefer_https_http (rest : string) :
  prefer_https ("http://" ++ rest) = "https://" ++ rest.
Proof. reflexivity. Qed.

Lemma prefer_https_web (u : string) :
  is_web_url u = true -> Js.startsWith "https" (prefer_https u) = true.
Proof.
  unfold is_web_url, prefer_https.
  destruct (Js.startsWith "https" u) eqn:E; [intros _; exact E|].
  rewrite orb_false_l. intros H.
  apply startsWith_inv in H as [r ->]. reflexivity.
Qed.

Lemma createTunnel_url_https (port : Z) (listing : listing_reply)
      (creation : create_reply) (m : tunnel_map) (u : string) :
  web_reply creation = true ->
  url (fst (fst (createTunnel port listing creation m))) = Some u ->
  Js.startsWith "https" u = true.
Proof.
  intros Hw Hu.
  destruct (createTunnel_map port listing creation m)
    as [[Hn _] | (u' & _ & Hu' & _ & [Hg | (pu & e & msg & -> & Hpu & ->)])].
  - rewrite Hn in Hu. discriminate.
  - rewrite Hu' in Hu. injection Hu as <-.
    exact (getNgrokTunnelUrl_https _ _ _ Hg).
  - rewrite Hu' in Hu. injection Hu as <-.
    apply prefer_https_web.
    simpl in Hw. rewrite Hpu, orb_false_r in Hw. exact Hw.
Qed.

Lemma createTunnel_all_https (port : Z) (listing : listing_reply)
      (creation : create_reply) (m : tunnel_map) :
  web_reply creation = true -> all_https m ->
  all_https (snd (fst (createTunnel port listing creation m))).
Proof.
  intros Hw Hm.
  pose proof (createTunnel_url_https port listing creation m) as Hurl.
  destruct (createTunnel_map port listing creation m)
    as [[_ ->] | (u & _ & Hu & -> & _)]; [exact Hm|].
  intros q v Hin. apply map_set_in in Hin as [[= -> ->] | Hin].
  - exact (Hurl u Hw Hu).
  - exact (Hm q v Hin).
Qed.

Lemma createTunnel_calls_all_https
      (calls : list (Z * listing_reply * create_reply)) (m : tunnel_map) :
  Forall (fun call => web_reply (snd call) = true) calls ->
  all_https m -> all_https (createTunnel_calls calls m).
Proof.
  intros Hc. revert m.
  induction Hc as [|[[port listing] creation] calls Hw _ IH]; intros m Hm.
  - exact Hm.
  - simpl. apply IH. now apply createTunnel_all_https.
Qed.

(** C9.  Every URL in [activeTunnels], hence every URL that
    [GET /api/tunnels] reports and every [url] that a successful
    [createTunnel] returns, begins with [https], after any sequence of
    calls to an agent whose creation replies carry [http] or [https]
    public URLs: the URL of a creation reply is kept when it begins
    with [https] and rewritten from [http://] to [https://] otherwise,
    and the lookup of an existing tunnel only answers with a URL that
    begins with [https]. *)
Theorem recorded_urls_begin_with_https :
  forall (calls : list (Z * listing_reply * create_reply)),
    Forall (fun call => web_reply (snd call) = true) calls ->
    let m := createTunnel_calls calls [] in
    all_https m
    /\ (forall p u, In (p, u) (api_tunnels m) -> Js.startsWith "https" u = true)
    /\ (forall port listing creation u,
          web_reply creation = true ->
          url (fst (fst (createTunnel port listing creation m))) = Some u ->
          Js.startsWith "https" u = true)
    /\ (forall rest, prefer_https ("http://" ++ rest) = "https://" ++ rest)
    /\ (forall port listing u,
          getNgrokTunnelUrl port listing = Some u ->
          Js.startsWith "https" u = true).
Proof.
  intros calls Hc m.
  assert (Hm : all_https m).
  { apply createTunnel_calls_all_https; [exact Hc | intros p u []]. }
  split; [exact Hm | split; [|split; [|split]]].
  - intros p u Hin. unfold api_tunnels in Hin.
    apply in_map_iff in Hin as ([q v] & [= <- <-] & Hin).
    exact (Hm _ _ Hin).
  - intros port listing creation u. apply createTunnel_url_https.
  - apply prefer_https_http.
  - apply getNgrokTunnelUrl_https.
Qed.

Lemma recorded_urls_begin_with_https_witness :
  Forall (fun call => web_reply (snd call) = true) http_creation
  /\ createTunnel_calls http_creation []
     = [(3000, "https://porthole-3000.ngrok.io")]
  /\ all_https (createTunnel_calls http_creation []).
Proof.
  assert (H : Forall (fun call => web_reply (snd call) = true) http_creation).
  { repeat constructor. }
  split; [exact H | split; [reflexivity|]].
  exact (proj1 (recorded_urls_begin_with_https http_creation H)).
Defined.

(* ================================================================== *)
(** * Port expansion: properties *)
(* ================================================================== *)

(** A port occurs once in the expansion of a range that holds it and
    not at all otherwise. *)
Lemma count_up_count (s p : Z) (n : nat) :
  count_occ Z.eq_dec (count_up s n) p
  = if (s <=? p) && (p <? s + Z.of_nat n) then 1%nat else 0%nat.
Proof.
  revert s; induction n as [|n IH]; intros s.
  - cbn [count_up count_occ].
    destruct (Z.leb_spec s p), (Z.ltb_spec p (s + Z.of_nat 0));
      simpl; (reflexivity || lia).
  - cbn [count_up count_occ]. rewrite IH.
    destruct (Z.eq_dec s p) as [He | Hne];
      destruct (Z.leb_spec (s + 1) p), (Z.ltb_spec p (s + 1 + Z.of_nat n)),
               (Z.leb_spec s p), (Z.ltb_spec p (s + Z.of_nat (S n)));
      simpl; (reflexivity || lia).
Qed.

Lemma range_count (r : Z * Z) (p : Z) :
  count_occ Z.eq_dec (count_up (fst r) (Z.to_nat (snd r - fst r + 1))) p
  = if holds p r then 1%nat else 0%nat.
Proof.
  rewrite count_up_count. unfold holds.
  destruct (Z.leb_spec (fst r) p), (Z.leb_spec p (snd r)),
           (Z.ltb_spec p (fst r + Z.of_nat (Z.to_nat (snd r - fst r + 1))));
    simpl; (reflexivity || lia).
Qed.

Lemma getPortsToScan_count (ranges : list (Z * Z)) (p : Z) :
  count_occ Z.eq_dec (getPortsToScan ranges) p
  = List.length (filter (holds p) ranges).
Proof.
  unfold getPortsToScan. induction ranges as [|r ranges IH]; [reflexivity|].
  cbn [flat_map filter]. rewrite count_occ_app, range_count, IH.
  destruct (holds p r); reflexivity.
Qed.

Lemma holds_iff (p : Z) (r : Z * Z) : holds p r = true <-> fst r <= p <= snd r.
Proof.
  unfold holds. rewrite andb_true_iff, !Z.leb_le. tauto.
Qed.

Lemma getPortsToScan_in (ranges : list (Z * Z)) (p : Z) :
  In p (getPortsToScan ranges) <-> exists r, In r ranges /\ fst r <= p <= snd r.
Proof.
  rewrite (count_occ_In Z.eq_dec), getPortsToScan_count. split.
  - intros Hpos.
    destruct (filter (holds p) ranges) as [|r rs] eqn:Ef; [simpl in Hpos; lia|].
    assert (Hin : In r (filter (holds p) ranges)) by (rewrite Ef; now left).
    apply filter_In in Hin as [Hin Hh]. exists r. split; [exact Hin|].
    now apply holds_iff.
  - intros (r & Hin & Hr).
    assert (Hf : In r (filter (holds p) ranges)).
    { apply filter_In. split; [exact Hin | now apply holds_iff]. }
    destruct (filter (holds p) ranges); [destruct Hf | simpl; lia].
Qed.

(** X5.  A port occurs in the list [getPortsToScan] returns as many
    times as there are configured ranges that hold it: overlapping
    ranges repeat a port, a range whose start is above its end adds
    nothing, and the list holds no port outside the ranges. *)
Theorem getPortsToScan_multiplicity :
  forall (ranges : list (Z * Z)) (p : Z),
    count_occ Z.eq_dec (getPortsToScan ranges) p
    = List.length (filter (holds p) ranges)
    /\ (In p (getPortsToScan ranges)
        <-> exists r, In r ranges /\ fst r <= p <= snd r).
Proof.
  intros. split; [apply getPortsToScan_count | apply getPortsToScan_in].
Qed.

Section ScanReportFacts.

Variable ownPort : Z.
Variable probe : nat -> Z -> bool.
Variable resolver : Z -> ProcessInfo.

(** An answer of a batch comes from a port of the batch, at its
    position. *)
Lemma scan_batch_some (i : nat) (ports : list Z) (s : ServiceInfo) :
  In (Some s) (scan_batch ownPort probe resolver i ports) ->
  exists k, nth_error ports k = Some (svc_port s)
            /\ scan_one ownPort probe resolver (i + k) (svc_port s) = Some s.
Proof.
  revert i; induction ports as [|p ports IH]; intros i H; [destruct H|].
  rewrite scan_batch_cons in H. destruct H as [H | H].
  - pose proof (scan_one_some _ _ _ _ _ _ H) as (Hp & _).
    exists 0%nat. rewrite Nat.add_0_r, Hp. split; [reflexivity | exact H].
  - destruct (IH _ H) as (k & Hk & Hs).
    exists (S k). rewrite Nat.add_succ_r. split; assumption.
Qed.

End ScanReportFacts.

(** X6.  Every [ServiceInfo] that [scanPorts] returns is about a port
    of a configured range, other than the gateway's own, whose probe
    answered that the port is open, and carries the name and the PID
    the process resolver gave for that port. *)
Theorem scanPorts_reports_probed_ports :
  forall (ownPort : Z) (probe : nat -> Z -> bool)
         (resolver : Z -> ProcessInfo) (ranges : list (Z * Z)),
    Forall (fun s =>
              (exists r, In r ranges /\ fst r <= svc_port s <= snd r)
              /\ svc_port s <> ownPort
              /\ (exists pos, nth_error (getPortsToScan ranges) pos
                              = Some (svc_port s)
                              /\ probe pos (svc_port s) = true)
              /\ svc_name s = pi_name (resolver (svc_port s))
              /\ svc_pid s = pi_pid (resolver (svc_port s)))
           (scanPorts ownPort probe resolver ranges).
Proof.
  intros. apply Forall_forall. intros s Hs.
  unfold scanPorts in Hs. rewrite scan_loop_complete in Hs by lia.
  cbn [app skipn] in Hs. apply (in_filter_non_null ownPort resolver) in Hs.
  apply scan_batch_some in Hs as (k & Hk & Hone).
  pose proof (scan_one_some _ _ _ _ _ _ Hone) as (_ & Hown & Hprobe).
  split; [|split; [exact Hown | split; [exists k; split; [exact Hk | exact Hprobe] |]]].
  - apply getPortsToScan_in. eapply nth_error_In; exact Hk.
  - unfold scan_one in Hone. destruct s as [port name pid].
    cbn [svc_port svc_name svc_pid] in *.
    destruct (port =? ownPort); [discriminate|].
    destruct (probe (0 + k)%nat port); [|discriminate].
    injection Hone as <- <-. split; reflexivity.
Qed.

(* ================================================================== *)
(** * Lines, fields and words: facts about [split] and [trim] *)
(* ================================================================== *)

Lemma has_char_app (c : ascii) (a b : string) :
  has_char c (a ++ b) = has_char c a || has_char c b.
Proof.
  induction a as [|d a IH]; [reflexivity|].
  cbn [append has_char]. now rewrite IH, orb_assoc.
Qed.

Lemma split_not_nil (sep : ascii) (s : string) : Js.split sep s <> [].
Proof.
  induction s as [|c s IH]; cbn [Js.split]; [discriminate|].
  destruct (Ascii.eqb c sep); [discriminate|].
  destruct (Js.split sep s); discriminate.
Qed.

(** A text without the separator joins the first field of what
    follows it. *)
Lemma split_clean_app (sep : ascii) (a b : string) :
  has_char sep a = false ->
  Js.split sep (a ++ b)
  = match Js.split sep b with
    | h :: t => (a ++ h) :: t
    | [] => [a]
    end.
Proof.
  induction a as [|c a IH]; intros H.
  - cbn [append]. destruct (Js.split sep b) eqn:E; [|reflexivity].
    now apply split_not_nil in E.
  - cbn [has_char] in H. apply orb_false_iff in H as [Hc Ha].
    cbn [append Js.split]. rewrite Hc, (IH Ha).
    destruct (Js.split sep b); reflexivity.
Qed.

Lemma split_clean (sep : ascii) (a : string) :
  has_char sep a = false -> Js.split sep a = [a].
Proof.
  intros H. rewrite <- (append_nil_r a) at 1.
  rewrite (split_clean_app sep a EmptyString H). cbn [Js.split].
  now rewrite append_nil_r.
Qed.

(** No field holds the separator. *)
Lemma split_fields_clean (sep : ascii) (s : string) :
  Forall (fun f => has_char sep f = false) (Js.split sep s).
Proof.
  induction s as [|c s IH]; cbn [Js.split].
  - repeat constructor.
  - destruct (Ascii.eqb c sep) eqn:Ec.
    + constructor; [reflexivity | exact IH].
    + destruct (Js.split sep s) as [|h t].
      * repeat constructor. cbn [has_char]. now rewrite Ec.
      * inversion IH as [|? ? Hh Ht]; subst.
        constructor; [|exact Ht]. cbn [has_char]. now rewrite Ec, Hh.
Qed.

Lemma concat_cons2 (sep x y : string) (l : list string) :
  String.concat sep (x :: y :: l) = x ++ sep ++ String.concat sep (y :: l).
Proof. reflexivity. Qed.

(** Joining the fields with the separator gives the text back. *)
Lemma concat_split (sep : ascii) (s : string) :
  String.concat (String sep EmptyString) (Js.split sep s) = s.
Proof.
  induction s as [|c s IH]; cbn [Js.split]; [reflexivity|].
  pose proof (split_not_nil sep s) as Hn.
  destruct (Js.split sep s) as [|h t]; [contradiction|].
  destruct (Ascii.eqb_spec c sep) as [-> | Hne].
  - rewrite concat_cons2, IH. reflexivity.
  - destruct t as [|h' t].
    + cbn [String.concat] in *. now rewrite IH.
    + rewrite concat_cons2 in *. rewrite <- IH. reflexivity.
Qed.

Lemma concat_truthy (sep q : string) (l : list string) :
  Js.truthy q = true -> Js.truthy (String.concat sep (q :: l)) = true.
Proof.
  destruct q as [|c q]; [discriminate|]. intros _.
  destruct l; reflexivity.
Qed.

(** Splitting the join of separator-free fields gives the fields
    back. *)
Lemma split_concat (sep : ascii) (ps : list string) :
  ps <> [] -> Forall (fun f => has_char sep f = false) ps ->
  Js.split sep (String.concat (String sep EmptyString) ps) = ps.
Proof.
  induction ps as [|p ps IH]; [contradiction|]. intros _ Hall.
  inversion Hall as [|? ? Hp Hps]; subst.
  destruct ps as [|q ps'].
  - cbn [String.concat]. now apply split_clean.
  - change (String.concat (String sep EmptyString) (p :: q :: ps'))
      with (p ++ String sep (String.concat (String sep EmptyString) (q :: ps'))).
    rewrite (split_clean_app sep p _ Hp).
    cbn [Js.split]. rewrite Ascii.eqb_refl.
    rewrite (IH ltac:(discriminate) Hps). now rewrite append_nil_r.
Qed.

Lemma ends_solid_app (a b : string) :
  ends_solid b = true -> ends_solid (a ++ b) = true.
Proof.
  intros Hb. induction a as [|c a IH]; [exact Hb|].
  cbn [append ends_solid]. destruct (a ++ b); [discriminate | exact IH].
Qed.

Lemma word_ends_solid (w : string) : is_solid w = true -> ends_solid w = true.
Proof.
  unfold is_solid. induction w as [|c w IH]; [discriminate|].
  cbn [Js.truthy no_space andb]. intros H.
  apply andb_true_iff in H as [Hc Hw].
  destruct w as [|d w]; [exact Hc|].
  cbn [ends_solid]. apply IH. exact Hw.
Qed.

(** [trimEnd] leaves a text that ends in a solid character and trims
    what follows it. *)
Lemma trimEnd_app (a b : string) :
  ends_solid a = true -> Js.trimEnd (a ++ b) = a ++ Js.trimEnd b.
Proof.
  induction a as [|c a IH]; [discriminate|]. intros H.
  cbn [append Js.trimEnd]. destruct a as [|d a].
  - cbn [ends_solid] in H. apply negb_true_iff in H.
    cbn [append]. destruct (Js.trimEnd b); [now rewrite H | reflexivity].
  - rewrite (IH H). reflexivity.
Qed.

Lemma trimEnd_space_ahead (s : string) :
  space_ahead s = true -> space_ahead (Js.trimEnd s) = true.
Proof.
  destruct s as [|c s]; [reflexivity|]. cbn [space_ahead Js.trimEnd].
  intros H. destruct (Js.trimEnd s); [now rewrite H | exact H].
Qed.

Lemma no_space_no_newline (s : string) :
  no_space s = true -> has_char "010" s = false.
Proof.
  induction s as [|c s IH]; [reflexivity|]. cbn [no_space has_char].
  intros H. apply andb_true_iff in H as [Hc Hs]. rewrite (IH Hs), orb_false_r.
  destruct (Ascii.eqb_spec c "010") as [-> | _]; [discriminate | reflexivity].
Qed.

Lemma all_blank_no_newline (s : string) :
  all_blank s = true -> has_char "010" s = false.
Proof.
  induction s as [|c s IH]; [reflexivity|]. cbn [all_blank has_char].
  intros H. apply andb_true_iff in H as [Hc Hs].
  apply andb_true_iff in Hc as [_ Hc]. rewrite (IH Hs), orb_false_r.
  destruct (Ascii.eqb_spec c "010") as [-> | _]; [discriminate | reflexivity].
Qed.

(** The first line of a text that starts with white space starts with
    white space, or is empty. *)
Lemma first_line_space_ahead (s : string) :
  space_ahead s = true ->
  exists h t, Js.split "010" s = h :: t /\ space_ahead h = true.
Proof.
  destruct s as [|c s]; [exists EmptyString, []; split; reflexivity|].
  cbn [space_ahead Js.split]. intros H.
  destruct (Ascii.eqb c "010"); [eexists _, _; split; reflexivity|].
  destruct (Js.split "010" s); eexists _, _; (split; [reflexivity | exact H]).
Qed.

(** ** Fields between runs of white space *)

Lemma split_ws_from_not_nil (b : bool) (s : string) : split_ws_from b s <> [].
Proof.
  revert b; induction s as [|c s IH]; intros b; cbn [split_ws_from];
    [discriminate|].
  destruct (Js.is_space c).
  - destruct b; [apply IH | discriminate].
  - destruct (split_ws_from false s); discriminate.
Qed.

Lemma split_ws_word_app (w y : string) :
  no_space w = true ->
  split_ws_from false (w ++ y)
  = match split_ws_from false y with
    | h :: r => (w ++ h) :: r
    | [] => [w]
    end.
Proof.
  induction w as [|c w IH]; intros H.
  - cbn [append]. destruct (split_ws_from false y) eqn:E; [|reflexivity].
    now apply split_ws_from_not_nil in E.
  - cbn [no_space] in H. apply andb_true_iff in H as [Hc Hw].
    apply negb_true_iff in Hc.
    cbn [append split_ws_from]. rewrite Hc, (IH Hw).
    destruct (split_ws_from false y); reflexivity.
Qed.

Lemma split_ws_skip (g y : string) :
  all_blank g = true -> split_ws_from true (g ++ y) = split_ws_from true y.
Proof.
  induction g as [|c g IH]; [reflexivity|]. cbn [all_blank]. intros H.
  apply andb_true_iff in H as [Hc Hg]. apply andb_true_iff in Hc as [Hc _].
  cbn [append split_ws_from]. rewrite Hc. exact (IH Hg).
Qed.

Lemma split_ws_space_ahead (y : string) :
  space_ahead y = true -> exists r, split_ws_from false y = EmptyString :: r.
Proof.
  destruct y as [|c y]; [exists []; reflexivity|].
  cbn [space_ahead split_ws_from]. intros ->. eauto.
Qed.

(** The two first fields of a line that starts with a word, a run of
    blanks and another word. *)
Lemma split_ws_two_words (name gap pid x : string) :
  is_solid name = true -> Js.truthy gap = true -> all_blank gap = true ->
  is_solid pid = true -> space_ahead x = true ->
  exists r, split_ws (name ++ gap ++ pid ++ x) = name :: pid :: r.
Proof.
  unfold is_solid, split_ws. intros Hn Hg Hb Hp Hx.
  apply andb_true_iff in Hn as [_ Hn]. apply andb_true_iff in Hp as [Hpt Hp].
  rewrite (split_ws_word_app name _ Hn).
  destruct gap as [|g gap]; [discriminate|].
  cbn [all_blank] in Hb. apply andb_true_iff in Hb as [Hg0 Hb].
  apply andb_true_iff in Hg0 as [Hg0 _].
  cbn [append split_ws_from]. rewrite Hg0.
  rewrite (split_ws_skip gap _ Hb).
  destruct pid as [|p0 pid]; [discriminate|].
  assert (Hp0 : Js.is_space p0 = false).
  { cbn [no_space] in Hp. apply andb_true_iff in Hp as [Hp _].
    now apply negb_true_iff in Hp. }
  replace (split_ws_from true (String p0 pid ++ x))
    with (split_ws_from false (String p0 pid ++ x))
    by (cbn [append split_ws_from]; now rewrite Hp0).
  rewrite (split_ws_word_app (String p0 pid) x Hp).
  destruct (split_ws_space_ahead x Hx) as [r ->].
  exists r. now rewrite !append_nil_r.
Qed.

(* ================================================================== *)
(** * Process resolver: properties *)
(* ================================================================== *)

Lemma or_else_truthy (s d : string) :
  Js.truthy d = true -> Js.truthy (Js.or_else s d) = true.
Proof. destruct s; [intros H; exact H | reflexivity]. Qed.

Lemma field_or_truthy (parts : list string) (i : nat) (d : string) :
  Js.truthy d = true -> Js.truthy (field_or parts i d) = true.
Proof.
  intros H. unfold field_or.
  destruct (nth_error parts i); [now apply or_else_truthy | exact H].
Qed.

(** The name [getProcessInfo] returns is never empty. *)
Lemma getProcessInfo_name_truthy (execSync : string -> completion string)
      (port : Z) :
  Js.truthy (pi_name (getProcessInfo execSync port)) = true.
Proof.
  unfold getProcessInfo, getProcessInfo_try.
  destruct (execSync (listen_command port)) as [output|m]; cbn [bind try_catch];
    [|reflexivity].
  destruct (Js.split "010" (Js.trim output)); [reflexivity|].
  cbn [pi_name]. now apply field_or_truthy.
Qed.

Lemma visible_not_space (c : ascii) :
  is_visible c = true -> Js.is_space c = false.
Proof.
  unfold is_visible, Js.is_space. intros H.
  apply andb_true_iff in H as [H1 H2].
  apply Nat.leb_le in H1. apply Nat.leb_le in H2.
  apply orb_false_iff. split.
  - apply andb_false_iff. right. apply Nat.leb_gt. lia.
  - apply Nat.eqb_neq. lia.
Qed.

Lemma word_is_solid (w : string) : is_word w = true -> is_solid w = true.
Proof.
  unfold is_word, is_solid. intros H. apply andb_true_iff in H as [Ht Hv].
  rewrite Ht. cbn [andb]. clear Ht.
  induction w as [|c w IH]; [reflexivity|].
  cbn [all_visible] in Hv. apply andb_true_iff in Hv as [Hc Hw].
  cbn [no_space]. now rewrite (visible_not_space c Hc), (IH Hw).
Qed.

(** The trimmed output of a command whose first line starts with a
    word, blanks and a word: its first line still does. *)
Lemma first_line_two_words (name gap pid rest : string) :
  is_solid name = true -> all_blank gap = true -> is_solid pid = true ->
  space_ahead rest = true ->
  exists h t,
    Js.split "010" (Js.trim (name ++ gap ++ pid ++ rest))
    = (name ++ gap ++ pid ++ h) :: t
    /\ space_ahead h = true.
Proof.
  intros Hn Hg Hp Hr.
  assert (Hsolid : ends_solid ((name ++ gap) ++ pid) = true)
    by (apply ends_solid_app, word_ends_solid, Hp).
  assert (Hclean : has_char "010" ((name ++ gap) ++ pid) = false).
  { unfold is_solid in Hn, Hp.
    apply andb_true_iff in Hn as [_ Hn]. apply andb_true_iff in Hp as [_ Hp].
    rewrite !has_char_app, (no_space_no_newline _ Hn),
      (all_blank_no_newline _ Hg), (no_space_no_newline _ Hp). reflexivity. }
  assert (Hstart : Js.trimStart (name ++ gap ++ pid ++ rest)
                   = name ++ gap ++ pid ++ rest).
  { unfold is_solid in Hn. destruct name as [|c name]; [discriminate|].
    cbn [Js.truthy no_space andb] in Hn. apply andb_true_iff in Hn as [Hc _].
    apply negb_true_iff in Hc. cbn [append Js.trimStart]. now rewrite Hc. }
  unfold Js.trim. rewrite Hstart.
  replace (name ++ gap ++ pid ++ rest) with (((name ++ gap) ++ pid) ++ rest)
    by now rewrite !append_assoc.
  rewrite (trimEnd_app _ rest Hsolid), (split_clean_app "010" _ _ Hclean).
  destruct (first_line_space_ahead _ (trimEnd_space_ahead rest Hr))
    as (h & t & -> & Hh).
  exists h, t. split; [now rewrite !append_assoc | exact Hh].
Qed.

(** X7.  When the query prints a first line that starts with the
    command name, blanks or tabs, and the PID (the two first columns of
    [lsof]), each a word of visible ASCII characters,
    [getProcessInfo] returns that name and that PID, whatever follows
    on the line and on the lines below. *)
Theorem getProcessInfo_reads_two_columns :
  forall (execSync : string -> completion string) (port : Z)
         (name gap pid rest : string),
    is_word name = true ->
    Js.truthy gap = true -> all_blank gap = true ->
    is_word pid = true ->
    space_ahead rest = true ->
    execSync (listen_command port) = Normal (name ++ gap ++ pid ++ rest) ->
    getProcessInfo execSync port = mkProcessInfo name (Some pid).
Proof.
  intros execSync port name gap pid rest Hn Hgt Hg Hp Hr He.
  apply word_is_solid in Hn, Hp.
  unfold getProcessInfo, getProcessInfo_try. rewrite He. cbn [bind try_catch].
  destruct (first_line_two_words name gap pid rest Hn Hg Hp Hr)
    as (h & t & -> & Hh).
  destruct (split_ws_two_words name gap pid h Hn Hgt Hg Hp Hh) as [r ->].
  unfold field_or, field_or_null. cbn [nth_error].
  unfold is_solid in Hn, Hp.
  apply andb_true_iff in Hn as [Hn _]. apply andb_true_iff in Hp as [Hp _].
  rewrite Hp. destruct name; [discriminate | reflexivity].
Qed.

Lemma getProcessInfo_reads_two_columns_witness :
  getProcessInfo node_listens 3000 = mkProcessInfo "node" (Some "1234").
Proof.
  exact (getProcessInfo_reads_two_columns node_listens 3000
           "node" "    " "1234"
           (" user   23u  IPv4 0x1f 0t0  TCP *:3000 (LISTEN)"
            ++ String "010" EmptyString)
           eq_refl eq_refl eq_refl eq_refl eq_refl eq_refl).
Defined.

(** X8.  [getProcessInfo] never fails its caller and never returns an
    empty name or an empty PID: it returns "unknown" and no PID when
    the query throws (the tool is missing, times out, or [grep] finds
    no listener) and when the query prints nothing but white space. *)
Theorem getProcessInfo_falls_back_to_unknown :
  forall (execSync : string -> completion string) (port : Z),
    Js.truthy (pi_name (getProcessInfo execSync port)) = true
    /\ (forall p, pi_pid (getProcessInfo execSync port) = Some p ->
                  Js.truthy p = true)
    /\ (forall m, execSync (listen_command port) = Throw m ->
                  getProcessInfo execSync port = unknown_process)
    /\ (forall output, execSync (listen_command port) = Normal output ->
                       Js.trim output = EmptyString ->
                       getProcessInfo execSync port = unknown_process).
Proof.
  intros execSync port.
  split; [apply getProcessInfo_name_truthy | split; [|split]].
  - unfold getProcessInfo, getProcessInfo_try.
    destruct (execSync (listen_command port)) as [output|m];
      cbn [bind try_catch]; [|discriminate].
    destruct (Js.split "010" (Js.trim output)); [discriminate|].
    cbn [pi_pid]. unfold field_or_null.
    destruct (nth_error (split_ws s) 1) as [q|]; [|discriminate].
    destruct (Js.truthy q) eqn:Eq; [|discriminate].
    now intros p [= <-].
  - intros m Hm. unfold getProcessInfo, getProcessInfo_try.
    now rewrite Hm.
  - intros output Ho Ht. unfold getProcessInfo, getProcessInfo_try.
    rewrite Ho. cbn [bind try_catch]. rewrite Ht. reflexivity.
Qed.

(** X9.  Every service a scan reports with [getProcessInfo] as its
    resolver has a name that is not empty. *)
Theorem scanPorts_names_never_empty :
  forall (ownPort : Z) (probe : nat -> Z -> bool)
         (execSync : string -> completion string) (ranges : list (Z * Z)),
    Forall (fun s => Js.truthy (svc_name s) = true)
           (scanPorts ownPort probe (getProcessInfo execSync) ranges).
Proof.
  intros. apply Forall_forall. intros s Hs.
  unfold scanPorts in Hs. rewrite scan_loop_complete in Hs by lia.
  cbn [app skipn] in Hs.
  apply (in_filter_non_null ownPort (getProcessInfo execSync)) in Hs.
  apply scan_batch_some in Hs as (k & _ & Hone).
  unfold scan_one in Hone.
  destruct (svc_port s =? ownPort); [discriminate|].
  destruct (probe (0 + k)%nat (svc_port s)); [|discriminate].
  injection Hone as Hone. rewrite <- Hone. cbn [svc_name].
  apply getProcessInfo_name_truthy.
Qed.

(* ================================================================== *)
(** * Process lifecycle: parsing the PID list, the commands run *)
(* ================================================================== *)

Lemma trimStart_word (w y : string) :
  is_solid w = true -> Js.trimStart (w ++ y) = w ++ y.
Proof.
  unfold is_solid. destruct w as [|c w]; [discriminate|].
  cbn [Js.truthy no_space andb append Js.trimStart]. intros H.
  apply andb_true_iff in H as [Hc _]. apply negb_true_iff in Hc.
  now rewrite Hc.
Qed.

Lemma trimEnd_unlines (pids : list string) :
  pids <> [] -> Forall (fun l => is_solid l = true) pids ->
  Js.trimEnd (unlines pids) = String.concat (String "010" EmptyString) pids.
Proof.
  induction pids as [|p pids IH]; [contradiction|]. intros _ Hall.
  inversion Hall as [|? ? Hp Hps]; subst.
  cbn [unlines]. rewrite (trimEnd_app p _ (word_ends_solid p Hp)).
  destruct pids as [|q pids].
  - cbn [unlines Js.trimEnd Js.is_space]. cbn. now rewrite append_nil_r.
  - rewrite concat_cons2. f_equal.
    assert (Hq : Js.truthy q = true).
    { inversion Hps as [|? ? Hq _]; subst. unfold is_solid in Hq.
      now apply andb_true_iff in Hq as [Hq _]. }
    pose proof (concat_truthy (String "010" EmptyString) q pids Hq) as Ht.
    specialize (IH ltac:(discriminate) Hps).
    change (Js.trimEnd (String "010" (unlines (q :: pids))))
      with (match Js.trimEnd (unlines (q :: pids)) with
            | EmptyString => EmptyString
            | String a b => String "010" (String a b)
            end).
    rewrite IH.
    destruct (String.concat (String "010" EmptyString) (q :: pids));
      [discriminate | reflexivity].
Qed.

Lemma filterBoolean_words (pids : list string) :
  Forall (fun l => is_solid l = true) pids -> Js.filterBoolean pids = pids.
Proof.
  unfold Js.filterBoolean.
  induction 1 as [|p pids Hp _ IH]; [reflexivity|]. cbn [filter].
  unfold is_solid in Hp. apply andb_true_iff in Hp as [-> _]. now rewrite IH.
Qed.

(** The entries of the parsed PID list are not empty and hold no line
    feed. *)
Lemma parse_pids_entries (output : string) :
  Forall (fun pid => Js.truthy pid = true /\ has_char "010" pid = false)
         (parse_pids output).
Proof.
  unfold parse_pids, Js.filterBoolean. apply Forall_forall. intros pid Hin.
  apply filter_In in Hin as [Hin Ht]. split; [exact Ht|].
  pose proof (split_fields_clean "010" (Js.trim output)) as Hall.
  rewrite Forall_forall in Hall. now apply Hall.
Qed.

(** X10.  Round trip with the format of [lsof -t]: when the output is
    a list of PIDs, one a line, each a word of visible ASCII
    characters, the list [killByPort] iterates over is that list, in
    the same order. *)
Theorem parse_pids_unlines :
  forall pids : list string,
    Forall (fun l => is_word l = true) pids ->
    parse_pids (unlines pids) = pids.
Proof.
  intros pids Hword.
  assert (Hall : Forall (fun l => is_solid l = true) pids)
    by (eapply Forall_impl; [|exact Hword]; exact word_is_solid).
  clear Hword. unfold parse_pids, Js.trim.
  destruct pids as [|p pids]; [reflexivity|].
  assert (Hp : is_solid p = true) by now inversion Hall.
  cbn [unlines]. rewrite (trimStart_word p _ Hp).
  change (p ++ String "010" (unlines pids)) with (unlines (p :: pids)).
  rewrite (trimEnd_unlines (p :: pids) ltac:(discriminate) Hall).
  rewrite split_concat.
  - now apply filterBoolean_words.
  - discriminate.
  - eapply Forall_impl; [|exact Hall]. cbv beta. intros l Hl.
    unfold is_solid in Hl. apply andb_true_iff in Hl as [_ Hl].
    now apply no_space_no_newline.
Qed.

Lemma parse_pids_unlines_witness :
  parse_pids (unlines ["11"; "22"; "33"]) = ["11"; "22"; "33"].
Proof.
  apply (parse_pids_unlines ["11"; "22"; "33"]).
  repeat constructor.
Defined.

Lemma kill_each_first_failure (execSync : string -> completion string)
      (before after : list string) (k m : string) :
  Forall (fun pid => exists o, execSync (kill_command pid) = Normal o) before ->
  execSync (kill_command k) = Throw m ->
  kill_each execSync (before ++ k :: after)%list
  = ((map kill_command before ++ [kill_command k])%list, Throw m).
Proof.
  intros Hb Hk. induction Hb as [|p before [o Hp] _ IH].
  - simpl. now rewrite Hk.
  - simpl. rewrite Hp, IH. reflexivity.
Qed.

(** X11.  [killByPort] stops at the first signal that fails: the PIDs
    listed before it have been signalled, the ones listed after it are
    left alone, and the object returned is the failure that carries
    the reason of the failed signal. *)
Theorem killByPort_stops_at_first_failure :
  forall (execSync : string -> completion string) (port : Z)
         (output : string) (before after : list string) (k m : string),
    execSync (lsof_command port) = Normal output ->
    parse_pids output = (before ++ k :: after)%list ->
    Forall (fun pid => exists o, execSync (kill_command pid) = Normal o)
           before ->
    execSync (kill_command k) = Throw m ->
    killByPort execSync port
    = ((lsof_command port :: map kill_command before ++ [kill_command k])%list,
       kill_failure port m).
Proof.
  intros execSync port output before after k m Ho Hp Hb Hk.
  unfold killByPort, killByPort_try. rewrite Ho, Hp.
  rewrite (kill_each_first_failure execSync before after k m Hb Hk).
  reflexivity.
Qed.

Lemma killByPort_stops_at_first_failure_witness :
  killByPort second_kill_fails 3000
  = (["lsof -i :3000 -P -n -t"; "kill -9 11"; "kill -9 22"],
     kill_failure 3000 "Command failed: kill -9 22").
Proof.
  apply (killByPort_stops_at_first_failure second_kill_fails 3000
           (unlines ["11"; "22"; "33"]) ["11"] ["33"] "22"
           "Command failed: kill -9 22" eq_refl eq_refl).
  - constructor; [exists EmptyString; reflexivity | constructor].
  - reflexivity.
Defined.

Lemma kill_each_commands (execSync : string -> completion string)
      (P : string -> Prop) (pids : list string) :
  Forall P pids ->
  Forall (fun c => exists pid, c = kill_command pid /\ P pid)
         (fst (kill_each execSync pids)).
Proof.
  induction 1 as [|p pids Hp _ IH]; cbn [kill_each fst]; [constructor|].
  destruct (execSync (kill_command p)).
  - destruct (kill_each execSync pids) as [ran c]. cbn [fst] in *.
    constructor; [eauto | exact IH].
  - cbn [fst]. constructor; [eauto | constructor].
Qed.

(** X12.  The commands [killByPort] runs, on any machine: first
    [lsof -i :{port} -P -n -t], then only commands [kill -9 {pid}],
    each for a PID that is not empty and holds no line feed; when the
    resolution command fails nothing else is run. *)
Theorem killByPort_commands :
  forall (execSync : string -> completion string) (port : Z),
    exists signals,
      fst (killByPort execSync port)
      = ("lsof -i :" ++ Js.show port ++ " -P -n -t") :: signals
      /\ Forall (fun c => exists pid,
                   c = "kill -9 " ++ pid
                   /\ pid <> EmptyString /\ has_char "010" pid = false)
                signals
      /\ (forall m,
            execSync ("lsof -i :" ++ Js.show port ++ " -P -n -t") = Throw m ->
            signals = []).
Proof.
  intros execSync port.
  change ("lsof -i :" ++ Js.show port ++ " -P -n -t") with (lsof_command port).
  unfold killByPort, killByPort_try.
  destruct (execSync (lsof_command port)) as [output|m].
  - pose proof (kill_each_commands execSync _ _ (parse_pids_entries output))
      as Hc.
    destruct (kill_each execSync (parse_pids output)) as [ran c].
    cbn [fst] in *. exists ran. split; [reflexivity|].
    split; [|discriminate].
    eapply Forall_impl; [|exact Hc]. cbv beta.
    intros c0 (pid & -> & Ht & Hn). exists pid.
    split; [reflexivity|]. split; [|exact Hn].
    intros ->. discriminate Ht.
  - cbn [fst]. exists []. split; [reflexivity|].
    split; [constructor | reflexivity].
Qed.

Lemma killByPort_commands_witness :
  exists signals,
    fst (killByPort second_kill_fails 3000)
    = "lsof -i :3000 -P -n -t" :: signals
    /\ signals = ["kill -9 11"; "kill -9 22"].
Proof.
  destruct (killByPort_commands second_kill_fails 3000)
    as (signals & Hran & _).
  exists signals. split; [exact Hran|].
  vm_compute in Hran. now injection Hran as <-.
Defined.

(* ================================================================== *)
(** * Quick launcher: the command line *)
(* ================================================================== *)

(** X13.  A process [launchCommand] starts is started detached, and
    its executable and arguments are the configured command line cut
    at every space: joined with single spaces they give the command
    line back, and no argument holds a space, so quotes in the command
    line do not group words. *)
Theorem launchCommand_cuts_at_spaces :
  forall (spawn : string -> list string -> completion unit)
         (quickLaunch : list QuickLaunchCommand) (index : Z),
    Forall (fun sp =>
              (exists cmd,
                 array_get quickLaunch index = Some cmd
                 /\ String.concat " " (sp_executable sp :: sp_args sp)
                    = ql_command cmd)
              /\ Forall (fun a => has_char " " a = false)
                        (sp_executable sp :: sp_args sp)
              /\ sp_detached sp = true /\ sp_unref sp = true)
           (snd (launchCommand spawn quickLaunch index)).
Proof.
  intros spawn quickLaunch index. unfold launchCommand.
  destruct (array_get quickLaunch index) as [cmd|]; [|constructor].
  pose proof (concat_split " " (ql_command cmd)) as Hjoin.
  pose proof (split_fields_clean " " (ql_command cmd)) as Hclean.
  pose proof (split_not_nil " " (ql_command cmd)) as Hne.
  destruct (Js.split " " (ql_command cmd)) as [|exe args]; [contradiction|].
  cbn [hd tl]. destruct (spawn exe args); [|constructor].
  cbn [snd]. constructor; [|constructor].
  cbn [sp_executable sp_args sp_detached sp_unref].
  split; [exists cmd; split; [reflexivity | exact Hjoin]|].
  split; [exact Hclean | split; reflexivity].
Qed.

(* ================================================================== *)
(** * Request handler: the routes of the API, the edges of forwarding *)
(* ================================================================== *)

Lemma route_number_show (key rest : string) (n : Z) :
  0 <= n -> no_digit_ahead rest = true ->
  route_number key (key ++ Js.show n ++ rest) = Some n.
Proof.
  intros Hn Hr. unfold route_number.
  rewrite (match_digits_head _ _ _ (match_here_show key rest n Hn Hr)).
  now apply parseInt_show.
Qed.

(** X14.  The three routes of the API that take a number read the run
    of digits that follows the route's prefix and ignore what comes
    after it; the number is handed to the operation as it is, with no
    check against the configured ranges or the size of the launcher's
    list.  Numbers up to 2^53 - 1 are read exactly. *)
Theorem api_number_routes :
  forall (n : Z) (rest search : string) (cookie : option string),
    0 <= n <= 9007199254740991 ->
    no_digit_ahead rest = true ->
    handle (mkRequest "POST" ("/api/kill/" ++ Js.show n ++ rest) search cookie)
    = RunKill n
    /\ handle (mkRequest "POST" ("/api/launch/" ++ Js.show n ++ rest)
                         search cookie)
       = RunLaunch n
    /\ handle (mkRequest "POST" ("/api/tunnel/" ++ Js.show n ++ rest)
                         search cookie)
       = RunCreateTunnel n.
Proof.
  intros n rest search cookie [Hn _] Hr. unfold handle, api_routes.
  cbn [req_pathname req_method].
  rewrite !route_number_show by assumption.
  repeat split.
Qed.

Lemma api_number_routes_witness :
  handle (mkRequest "POST" "/api/kill/3000" "" None) = RunKill 3000
  /\ handle (mkRequest "POST" "/api/launch/3000" "" None) = RunLaunch 3000
  /\ handle (mkRequest "POST" "/api/tunnel/3000" "" None)
     = RunCreateTunnel 3000.
Proof.
  apply (api_number_routes 3000 "" "" None); [lia | reflexivity].
Defined.

Lemma has_digit_app (a b : string) :
  has_digit (a ++ b) = has_digit a || has_digit b.
Proof.
  induction a as [|c a IH]; [reflexivity|].
  cbn [append has_digit]. now rewrite IH, orb_assoc.
Qed.

Lemma has_digit_slice (n : nat) (s : string) :
  has_digit (Js.slice n s) = true -> has_digit s = true.
Proof.
  revert s; induction n as [|n IH]; intros s; [now destruct s|].
  destruct s as [|c s]; cbn [Js.slice has_digit]; [discriminate|].
  intros H. rewrite (IH s H). apply orb_true_r.
Qed.

Lemma span_digits_has_digit (s : string) :
  fst (Js.span_digits s) <> EmptyString -> has_digit s = true.
Proof.
  destruct s as [|c s]; cbn [Js.span_digits has_digit fst]; [congruence|].
  destruct (Js.is_digit c); [reflexivity|]. cbn [fst]. congruence.
Qed.

Lemma match_here_has_digit (key s ds : string) :
  Js.match_here key s = Some ds -> has_digit s = true.
Proof.
  unfold Js.match_here. destruct (Js.startsWith key s); [|discriminate].
  pose proof (span_digits_has_digit (Js.slice (String.length key) s)) as H.
  destruct (Js.span_digits (Js.slice (String.length key) s)) as [d r].
  cbn [fst] in H. destruct d as [|c d]; [discriminate|]. intros _.
  apply (has_digit_slice (String.length key)). apply H. discriminate.
Qed.

Lemma match_digits_has_digit (key s ds : string) :
  Js.match_digits key s = Some ds -> has_digit s = true.
Proof.
  induction s as [|c s IH]; cbn [Js.match_digits].
  - destruct (Js.match_here key EmptyString) eqn:E; [|discriminate].
    intros _. exact (match_here_has_digit _ _ _ E).
  - destruct (Js.match_here key (String c s)) eqn:E.
    + intros _. exact (match_here_has_digit _ _ _ E).
    + intros H. cbn [has_digit]. rewrite (IH H). apply orb_true_r.
Qed.

Lemma route_number_no_digit (key rest : string) :
  has_digit key = false -> has_digit rest = false ->
  route_number key (key ++ rest) = None.
Proof.
  intros Hk Hr. unfold route_number.
  destruct (Js.match_digits key (key ++ rest)) as [ds|] eqn:E; [|reflexivity].
  apply match_digits_has_digit in E.
  rewrite has_digit_app, Hk, Hr in E. discriminate.
Qed.

(** X15.  A request to one of the three numbered routes whose path
    holds no digit after the prefix is answered 400 with the route's
    own message, and no operation is run. *)
Theorem api_number_missing :
  forall (rest search : string) (cookie : option string),
    has_digit rest = false ->
    handle (mkRequest "POST" ("/api/kill/" ++ rest) search cookie)
    = BadRequest ("Invalid port: /api/kill/" ++ rest)
    /\ handle (mkRequest "POST" ("/api/launch/" ++ rest) search cookie)
       = BadRequest "Invalid command index"
    /\ handle (mkRequest "POST" ("/api/tunnel/" ++ rest) search cookie)
       = BadRequest "Invalid port".
Proof.
  intros rest search cookie Hr. unfold handle, api_routes.
  cbn [req_pathname req_method].
  rewrite !route_number_no_digit by (reflexivity || assumption).
  repeat split.
Qed.

Lemma api_number_missing_witness :
  handle (mkRequest "POST" "/api/kill/abc" "" None)
  = BadRequest "Invalid port: /api/kill/abc"
  /\ handle (mkRequest "POST" "/api/launch/abc" "" None)
     = BadRequest "Invalid command index"
  /\ handle (mkRequest "POST" "/api/tunnel/abc" "" None)
     = BadRequest "Invalid port".
Proof.
  apply (api_number_missing "abc" "" None). reflexivity.
Defined.

Lemma startsWith_api_not_proxy (pathname : string) :
  Js.startsWith "/api/" pathname = true ->
  match_proxy pathname = None
  /\ Js.startsWith "/p/" pathname || String.eqb pathname "/p" = false
  /\ String.eqb pathname "/" = false.
Proof.
  intros H. apply startsWith_inv in H as [r ->]. repeat split.
Qed.

(** X16.  Under [/api/] only GET and POST are served: a request with
    any other method is answered 404, whatever its path and its
    cookies, and no operation is run. *)
Theorem api_other_methods_not_found :
  forall (req : request),
    Js.startsWith "/api/" (req_pathname req) = true ->
    String.eqb (req_method req) "GET" = false ->
    String.eqb (req_method req) "POST" = false ->
    handle req = NotFound.
Proof.
  intros req Ha Hg Hp.
  destruct (startsWith_api_not_proxy _ Ha) as (Hm & Hpp & Hr).
  unfold handle, api_routes. rewrite Hg, Hp, !andb_false_r.
  unfold proxy_routes. rewrite Hm, Hpp, Ha, Hr. reflexivity.
Qed.

Lemma api_other_methods_not_found_witness :
  handle (mkRequest "DELETE" "/api/kill/3000" ""
                    (Some "porthole_proxy_port=3000"))
  = NotFound.
Proof.
  apply api_other_methods_not_found; reflexivity.
Defined.

Lemma span_digits_inv (s ds r : string) :
  Js.span_digits s = (ds, r) -> s = ds ++ r /\ all_digits ds = true.
Proof.
  revert ds r; induction s as [|c s IH]; intros ds r; cbn [Js.span_digits].
  - intros [= <- <-]. split; reflexivity.
  - destruct (Js.is_digit c) eqn:Ec.
    + destruct (Js.span_digits s) as [d r0]. intros [= <- <-].
      destruct (IH d r0 eq_refl) as [-> Hd]. split; [reflexivity|].
      cbn [all_digits]. now rewrite Ec, Hd.
    + intros [= <- <-]. split; reflexivity.
Qed.

Lemma match_here_inv (key s ds : string) :
  Js.match_here key s = Some ds ->
  exists r, s = key ++ ds ++ r /\ all_digits ds = true.
Proof.
  unfold Js.match_here. destruct (Js.startsWith key s) eqn:Es; [|discriminate].
  apply startsWith_inv in Es as [r0 ->]. rewrite slice_app.
  destruct (Js.span_digits r0) as [d r] eqn:Ed.
  apply span_digits_inv in Ed as [-> Hd].
  destruct d; [discriminate|]. intros [= <-]. now exists r.
Qed.

Lemma match_digits_inv (key s ds : string) :
  Js.match_digits key s = Some ds ->
  Occurs (key ++ ds) s /\ all_digits ds = true.
Proof.
  induction s as [|c s IH]; cbn [Js.match_digits].
  - destruct (Js.match_here key EmptyString) eqn:E; [|discriminate].
    intros [= ->]. apply match_here_inv in E as (r & E & Hd).
    split; [|exact Hd]. exists EmptyString, r.
    cbn [append]. rewrite append_assoc. exact E.
  - destruct (Js.match_here key (String c s)) eqn:E.
    + intros [= ->]. apply match_here_inv in E as (r & E & Hd).
      split; [|exact Hd]. exists EmptyString, r.
      cbn [append]. rewrite append_assoc. exact E.
    + intros H. destruct (IH H) as [(a & b & ->) Hd]. split; [|exact Hd].
      exists (String c a), b. reflexivity.
Qed.

Lemma parseInt_nonneg (ds : string) (n : Z) : Js.parseInt ds = Some n -> 0 <= n.
Proof.
  unfold Js.parseInt. destruct (NilZero.uint_of_string ds); [|discriminate].
  intros [= <-]. unfold Z.of_uint. apply N2Z.is_nonneg.
Qed.

Lemma truthy_port_inv (t : option Z) (p : Z) :
  truthy_port t = Some p -> t = Some p /\ p <> 0.
Proof.
  destruct t as [[|q|q]|]; cbn [truthy_port]; try discriminate;
    intros [= <-]; split; (reflexivity || discriminate).
Qed.

(** X17.  Whenever the handler forwards a request, the target is the
    port that the request's own [Cookie] header names: the header
    holds [porthole_proxy_port=] followed by the digits of the port,
    the port is positive, the request is sent on with its method and
    its query, with the [Host] header [localhost:{port}], at its own
    path or at the path with the prefix [/p] taken off.  No request is
    forwarded to a port that the client did not put in the cookie. *)
Theorem forward_follows_cookie :
  forall (req : request) (port : Z) (path method host : string),
    handle req = Forward port path method host ->
    0 < port
    /\ (exists h ds,
          req_cookie req = Some h
          /\ Occurs (cookie_key ++ ds) h
          /\ all_digits ds = true
          /\ Js.parseInt ds = Some port)
    /\ method = req_method req
    /\ host = "localhost:" ++ Js.show port
    /\ (path = canonical (Js.slice 2 (req_pathname req)) ++ req_search req
        \/ path = req_pathname req ++ req_search req).
Proof.
  intros req port path method host H.
  apply handle_forward_inv in H as (_ & Ht & Hm & Hh & Hp).
  apply truthy_port_inv in Ht as [Ht Hne].
  unfold cookie_target in Ht.
  destruct (Js.match_digits cookie_key
              match req_cookie req with Some c => c | None => EmptyString end)
    as [ds|] eqn:Em; [|discriminate].
  assert (Hpos : 0 < port) by (apply parseInt_nonneg in Ht as ?; lia).
  split; [exact Hpos|]. split; [|split; [exact Hm | split; [exact Hh|]]].
  - destruct (req_cookie req) as [h|].
    + apply match_digits_inv in Em as [Ho Hd]. exists h, ds. auto.
    + discriminate.
  - destruct Hp as [[_ ->] | (_ & _ & _ & ->)]; [left | right]; reflexivity.
Qed.

Lemma forward_follows_cookie_witness :
  exists port path method host,
    handle (mkRequest "PUT" "/p/items/7" "?draft=1"
                      (Some "theme=dark; porthole_proxy_port=8080"))
    = Forward port path method host
    /\ 0 < port /\ method = "PUT" /\ host = "localhost:8080".
Proof.
  exists 8080, "/items/7?draft=1", "PUT", "localhost:8080".
  split; [reflexivity|].
  destruct (forward_follows_cookie
              (mkRequest "PUT" "/p/items/7" "?draft=1"
                         (Some "theme=dark; porthole_proxy_port=8080"))
              8080 "/items/7?draft=1" "PUT" "localhost:8080" eq_refl)
    as (Hp & _ & Hm & Hh & _).
  split; [exact Hp | split; [exact Hm | exact Hh]].
Defined.

Lemma handle_canonical_no_target (req : request) (sub : string) :
  req_pathname req = "/p" ++ sub -> is_subpath sub = true ->
  truthy_port (cookie_target (req_cookie req)) = None ->
  handle req = NoProxyTarget.
Proof.
  intros Hpath Hsub Hc. unfold handle.
  assert (Hshape : sub = EmptyString \/ exists r, sub = "/" ++ r).
  { destruct sub as [|x r]; [left; reflexivity | right].
    simpl in Hsub. apply andb_true_iff in Hsub as [Hx _].
    apply Ascii.eqb_eq in Hx. subst x. exists r. reflexivity. }
  rewrite api_routes_none
    by (rewrite Hpath; destruct Hshape as [-> | [r ->]]; reflexivity).
  unfold proxy_routes. rewrite Hpath, Hc.
  destruct Hshape as [-> | [r ->]]; reflexivity.
Qed.

(** X18.  Port 0 can be selected but is never a target.  A request to
    [/proxy/0{sub}] is answered by the redirect that sets the
    selection cookie of port 0; a request that carries that cookie is
    never forwarded, and under [/p] it is answered with the 400 page
    "No proxy target set". *)
Theorem port_zero_is_never_a_target :
  forall (sub q m h : string) (c : option string),
    is_subpath sub = true ->
    carries_selection h 0 ->
    handle (mkRequest m ("/proxy/0" ++ sub) q c)
    = Redirect (selection_cookie 0 ++ "; Path=/; SameSite=Lax")
               ("/p" ++ canonical sub ++ q)
    /\ handle (mkRequest m ("/p" ++ sub) q (Some h)) = NoProxyTarget
    /\ (forall req, req_cookie req = Some h ->
                    is_forward (handle req) = false).
Proof.
  intros sub q m h c Hsub Hc.
  assert (Ht : truthy_port (cookie_target (Some h)) = None)
    by now rewrite (cookie_target_carried h 0 (Z.le_refl 0) Hc).
  split; [exact (handle_selection 0 sub q m c (Z.le_refl 0) Hsub) | split].
  - now apply (handle_canonical_no_target _ sub).
  - intros req Hreq.
    destruct (handle req) as [| | | | | | | | |port path method host| | |] eqn:Eh;
      try reflexivity.
    apply handle_forward_inv in Eh as (_ & Ht' & _).
    rewrite Hreq, Ht in Ht'. discriminate.
Qed.

Lemma port_zero_is_never_a_target_witness :
  handle (mkRequest "GET" "/proxy/0/index.html" "" None)
  = Redirect "porthole_proxy_port=0; Path=/; SameSite=Lax" "/p/index.html"
  /\ handle (mkRequest "GET" "/p/index.html" ""
                       (Some "porthole_proxy_port=0"))
     = NoProxyTarget.
Proof.
  assert (Hc : carries_selection "porthole_proxy_port=0" 0).
  { exists EmptyString, EmptyString. split; [reflexivity|].
    split; [reflexivity|]. intros a b E.
    apply (f_equal String.length) in E.
    rewrite !length_append in E. simpl in E.
    destruct b; [reflexivity | simpl in E; lia]. }
  destruct (port_zero_is_never_a_target "/index.html" "" "GET"
              "porthole_proxy_port=0" None eq_refl Hc) as (H1 & H2 & _).
  split; [exact H1 | exact H2].
Defined.

(* ================================================================== *)
(** * Per-port tunnels: what a call changes *)
(* ================================================================== *)

Lemma map_get_set_other (p q : Z) (u : string) (m : tunnel_map) :
  p <> q -> map_get q (map_set p u m) = map_get q m.
Proof.
  intros Hpq. unfold map_get.
  induction m as [|[p' v] m IH]; cbn [map_set find fst].
  - apply Z.eqb_neq in Hpq. now rewrite Hpq.
  - destruct (p' =? p) eqn:E; cbn [find fst].
    + apply Z.eqb_eq in E. subst p'.
      apply Z.eqb_neq in Hpq. now rewrite Hpq.
    + destruct (p' =? q); [reflexivity | exact IH].
Qed.

(** X19.  What one call [createTunnel(port)] does, whatever the agent
    answers.  It first asks the agent for its listing and sends at
    most one creation request after it, for [http://localhost:{port}].
    A call that reports success returns a URL that is not empty and
    has recorded that URL under [port]; a call that reports failure
    returns no URL, gives a message and leaves the active tunnels as
    they were.  The entries of all other ports are never touched. *)
Theorem createTunnel_effect :
  forall (port : Z) (listing : listing_reply) (creation : create_reply)
         (activeTunnels : tunnel_map),
    let r := fst (fst (createTunnel port listing creation activeTunnels)) in
    let m' := snd (fst (createTunnel port listing creation activeTunnels)) in
    let sent := snd (createTunnel port listing creation activeTunnels) in
    (sent = [GetTunnels]
     \/ sent = [GetTunnels;
                PostTunnel ("http://localhost:" ++ Js.show port) "http"
                           ("porthole-" ++ Js.show port)
                           ("porthole-" ++ Js.show port)])
    /\ (success r = true ->
        exists u, url r = Some u /\ Js.truthy u = true
                  /\ map_get port m' = Some u)
    /\ (success r = false ->
        url r = None /\ m' = activeTunnels
        /\ exists msg, message r = Some msg)
    /\ (forall q, q <> port -> map_get q m' = map_get q activeTunnels).
Proof.
  intros port listing creation m. unfold createTunnel.
  destruct (getNgrokTunnelUrl port listing) as [existingUrl|] eqn:Eg;
    cbn [fst snd success url message].
  - split; [left; reflexivity|]. split; [|split].
    + intros _. exists existingUrl. split; [reflexivity|].
      split; [|apply map_get_set].
      apply getNgrokTunnelUrl_https in Eg.
      exact (startsWith_truthy "https" existingUrl Eg eq_refl).
    + discriminate.
    + intros q Hq. apply map_get_set_other. congruence.
  - destruct (on_create_reply port creation m) as [r m'] eqn:Ec.
    cbn [fst snd]. split; [right; reflexivity|].
    unfold on_create_reply in Ec.
    destruct creation as [msg | | msg | [[|c u]|] e msg];
      try destruct e; injection Ec as <- <-;
      cbn [success url message fail_result];
      (split; [|split]);
      try discriminate;
      try (intros _; split; [reflexivity|];
           split; [reflexivity | eexists; reflexivity]);
      try reflexivity.
    all: try (intros _; eexists; split; [reflexivity|];
              split; [|apply map_get_set]).
    all: try (intros q Hq; apply map_get_set_other; congruence).
    all: unfold prefer_https;
      destruct (Js.startsWith "https" (String c u)) eqn:E; [reflexivity|].
    all: unfold Js.replace; fold Js.replace;
      destruct (Js.startsWith "http://" (String c u)); reflexivity.
Qed.

(* ================================================================== *)
(** * Startup: what [main] does to the agent *)
(* ================================================================== *)

Lemma find_none_all_foreign (cfg : config) (ts : list tunnel) :
  find (targets_gateway cfg) ts = None <-> all_foreign cfg ts = true.
Proof.
  unfold all_foreign. induction ts as [|t ts IH]; cbn [find forallb].
  - split; reflexivity.
  - destruct (targets_gateway cfg t); cbn [negb andb]; [|exact IH].
    split; discriminate.
Qed.

(** The agent's events leave the promise pending exactly when all of
    them are quiet; otherwise they reject it. *)
Lemma agent_events_outcome (events : list agent_event) :
  if forallb quiet_event events
  then fold_left agent_deliver events Pending = Pending
  else exists m, fold_left agent_deliver events Pending = Rejected m.
Proof.
  induction events as [|ev events IH]; cbn [forallb fold_left]; [reflexivity|].
  destruct (quiet_event ev) eqn:Eq; cbn [andb].
  - replace (agent_deliver Pending ev) with (@Pending unit); [exact IH|].
    destruct ev as [code msg | data | [c|]]; cbn [quiet_event] in Eq;
      cbn [agent_deliver]; try discriminate.
    + apply negb_true_iff in Eq. now rewrite Eq.
    + now rewrite Eq.
    + reflexivity.
  - assert (exists m, agent_deliver Pending ev = @Rejected unit m) as [m ->].
    { destruct ev as [code msg | data | [c|]]; cbn [quiet_event] in Eq;
        cbn [agent_deliver]; try discriminate.
      - destruct (String.eqb code "ENOENT"); eexists; reflexivity.
      - apply negb_false_iff in Eq. rewrite Eq. eexists; reflexivity.
      - rewrite Eq. eexists; reflexivity. }
    exists m. apply agent_rejected_stays.
Qed.

Lemma startNgrok_outcome (cfg : config) (env : startup_env) :
  snd (startNgrok cfg env) = Normal tt
  <-> policy_write env = Normal tt /\ spawn_result env = Normal tt
      /\ forallb quiet_event (agent_events env) = true.
Proof.
  unfold startNgrok.
  destruct (policy_write env) as [[]|m1]; [|split; [|intros [H _]]; discriminate].
  destruct (spawn_result env) as [[]|m2];
    [|split; [|intros (_ & H & _)]; discriminate].
  cbn [snd]. pose proof (agent_events_outcome (agent_events env)) as H.
  destruct (forallb quiet_event (agent_events env)).
  - rewrite H. split; auto.
  - destruct H as [m ->]. split; [discriminate | intros (_ & _ & H); discriminate].
Qed.

(** X20.  [main] ends serving with an agent of its own exactly when
    no listed session is the gateway's, the policy file could be
    written, the agent could be spawned, and no event of the agent
    before the three-second timer is a failure.  An agent that ends
    with status 0 within that time is no failure: the gateway then
    reports the tunnel as active. *)
Theorem main_serves_own_agent :
  forall (cfg : config) (env : startup_env),
    snd (main cfg env) = Serving true
    <-> ex_exists (checkExistingNgrok cfg (agent_listing env)) = false
        /\ policy_write env = Normal tt
        /\ spawn_result env = Normal tt
        /\ forallb quiet_event (agent_events env) = true.
Proof.
  intros cfg env. rewrite <- (startNgrok_outcome cfg env). unfold main.
  destruct (ex_exists (checkExistingNgrok cfg (agent_listing env))).
  - cbn [snd]. split; [discriminate | intros [H _]; discriminate].
  - destruct (startNgrok cfg env) as [started [[]|m]]; cbn [snd main_catch].
    + split; [intros _; split; reflexivity | reflexivity].
    + split; [discriminate | intros [_ H]; discriminate].
Qed.

(** X21.  [main] runs [pkill -f ngrok] exactly when the agent's
    listing could be read, lists at least one tunnel, and none of them
    is the gateway's own session.  When the agent does not answer, or
    lists nothing, no process is signalled. *)
Theorem main_pkill_only_foreign_sessions :
  forall (cfg : config) (env : startup_env),
    In Pkill (fst (main cfg env))
    <-> exists t ts,
          agent_listing env = ListingDoc (Some (t :: ts))
          /\ all_foreign cfg (t :: ts) = true.
Proof.
  intros cfg env.
  assert (Hstart : ~ In Pkill (fst (startNgrok cfg env))).
  { unfold startNgrok.
    destruct (policy_write env); [destruct (spawn_result env)|];
      cbn [fst In]; intuition congruence. }
  assert (Hkill : In Pkill (killExistingNgrok (pkill_result env))).
  { unfold killExistingNgrok. destruct (pkill_result env); left; reflexivity. }
  unfold main, checkExistingNgrok.
  destruct (agent_listing env) as [| | | [ts|]] eqn:El;
    try (cbn [ex_exists ex_hasOtherTunnels];
         destruct (startNgrok cfg env) as [started [[]|m]];
         cbn [fst main_catch app In] in *;
         (split; [rewrite !in_app_iff; cbn [In]; intuition congruence
                 | intros (t & ts' & H & _); discriminate])).
  pose proof (find_none_all_foreign cfg ts) as Hf.
  destruct (find (targets_gateway cfg) ts) as [own|];
    cbn [ex_exists ex_hasOtherTunnels].
  - cbn [fst app In]. split.
    + intros [H|[H|[H|[H|[H|[]]]]]]; discriminate H.
    + intros (t & ts' & [= <-] & Ha).
      apply Hf in Ha. discriminate.
  - destruct ts as [|t ts]; cbn [List.length Nat.ltb Nat.leb].
    + destruct (startNgrok cfg env) as [started [[]|m]];
        cbn [fst main_catch app In] in *;
        (split; [rewrite !in_app_iff; cbn [In]; intuition congruence
                | intros (t & ts' & H & _); discriminate]).
    + split.
      * intros _. exists t, ts. split; [reflexivity | now apply Hf].
      * intros _.
        destruct (startNgrok cfg env) as [started [[]|m]];
          cbn [fst main_catch app In];
          right; right; right; right; apply in_app_iff; left; exact Hkill.
Qed.






(** X23.  How [main] leaves the process.  The server is told to
    listen before anything else, also when startup then fails.  The
    shutdown handlers are installed exactly when [main] ends serving,
    and they terminate the agent exactly when this run has spawned
    it: a reused session is left running at shutdown.  The process
    exits during startup only with status 1, and then no shutdown
    handler is installed. *)
Theorem main_outcome :
  forall (cfg : config) (env : startup_env),
    hd_error (fst (main cfg env)) = Some (Listen (serverPort cfg))
    /\ match snd (main cfg env) with
       | Serving owns =>
           existsb is_spawn (fst (main cfg env)) = owns
           /\ (forall o, In (InstallShutdown o) (fst (main cfg env))
                         <-> o = owns)
           /\ (forall code, ~ In (Exit code) (fst (main cfg env)))
       | Exited code =>
           code = 1
           /\ In (Exit 1) (fst (main cfg env))
           /\ (forall o, ~ In (InstallShutdown o) (fst (main cfg env)))
       end.
Proof.
  intros cfg env. split.
  { unfold main.
    destruct (ex_exists (checkExistingNgrok cfg (agent_listing env)));
      [reflexivity|].
    destruct (startNgrok cfg env) as [started [[]|m]]; reflexivity. }
  unfold main, startNgrok, killExistingNgrok.
  destruct (ex_exists (checkExistingNgrok cfg (agent_listing env)));
    [|destruct (ex_hasOtherTunnels (checkExistingNgrok cfg (agent_listing env)));
      destruct (pkill_result env);
      destruct (policy_write env) as [[]|?];
      try destruct (spawn_result env) as [[]|?];
      try destruct (after_timer (fold_left agent_deliver (agent_events env)
                                           Pending)) as [[]|?]];
    cbn [fst snd List.app In existsb is_spawn orb main_catch];
    repeat match goal with
           | |- _ /\ _ => split
           | |- _ = _ => reflexivity
           | |- forall o, _ <-> _ =>
               intros o; split;
               [intuition congruence | intros ->; intuition reflexivity]
           | |- forall c, ~ _ => intros c; intuition congruence
           | |- _ \/ _ => intuition reflexivity
           end.
Qed.

Lemma targets_gateway_iff (cfg : config) (t : tunnel) :
  targets_gateway cfg t = true
  <-> exists addr u,
        config_addr t = Some addr
        /\ Occurs (":" ++ Js.show (serverPort cfg)) addr
        /\ public_url t = Some u
        /\ Occurs (ngrok_domain cfg) u.
Proof.
  unfold targets_gateway. rewrite andb_true_iff, !opt_includes_iff. split.
  - intros [(addr & Ha & Hoa) (u & Hu & Hou)]. exists addr, u. auto.
  - intros (addr & u & Ha & Hoa & Hu & Hou). split; eauto.
Qed.

(** X24.  [main] reuses a session, and ends serving without an agent
    of its own, exactly when the agent's listing could be read and
    holds a tunnel whose address contains [:{serverPort}] and whose
    public URL contains the configured domain.  When the agent does
    not answer, answers something else than a listing, or lists only
    other tunnels, no session is reused. *)
Theorem main_reuses_only_listed_session :
  forall (cfg : config) (env : startup_env),
    snd (main cfg env) = Serving false
    <-> exists ts t addr u,
          agent_listing env = ListingDoc (Some ts)
          /\ In t ts
          /\ config_addr t = Some addr
          /\ Occurs (":" ++ Js.show (serverPort cfg)) addr
          /\ public_url t = Some u
          /\ Occurs (ngrok_domain cfg) u.
Proof.
  intros cfg env.
  assert (Hmain : snd (main cfg env) = Serving false
                  <-> ex_exists (checkExistingNgrok cfg (agent_listing env))
                      = true).
  { unfold main.
    destruct (ex_exists (checkExistingNgrok cfg (agent_listing env)));
      [split; reflexivity|].
    destruct (startNgrok cfg env) as [started [[]|m]]; cbn [snd main_catch];
      split; discriminate. }
  rewrite Hmain. unfold checkExistingNgrok. split.
  - destruct (agent_listing env) as [| | | [ts|]]; cbn [ex_exists];
      try discriminate.
    destruct (find (targets_gateway cfg) ts) as [t|] eqn:Ef; cbn [ex_exists];
      [|discriminate].
    intros _. apply find_some in Ef as [Hin Ht].
    apply targets_gateway_iff in Ht as (addr & u & Ht).
    exists ts, t, addr, u. split; [reflexivity | split; [exact Hin | exact Ht]].
  - intros (ts & t & addr & u & -> & Hin & Ht).
    assert (Hg : targets_gateway cfg t = true)
      by (apply targets_gateway_iff; eauto).
    destruct (find_exists _ _ _ Hin Hg) as [y ->]. reflexivity.
Qed.

Lemma find_some_first_match {A : Type} (f : A -> bool) (ts : list A) (t : A) :
  find f ts = Some t -> first_match f ts t.
Proof.
  induction ts as [|x ts IH]; cbn [find]; [discriminate|].
  destruct (f x) eqn:Ex.
  - intros [= <-]. exists [], ts. split; [reflexivity|].
    split; [exact Ex | intros ? []].
  - intros H. destruct (IH H) as (before & after & -> & Ht & Hb).
    exists (x :: before), after. split; [reflexivity|]. split; [exact Ht|].
    intros y [<- | Hy]; [exact Ex | now apply Hb].
Qed.

Lemma targets_port_https_iff (port : Z) (t : tunnel) :
  targets_port_https port t = true <-> lists_port_https port t.
Proof.
  unfold targets_port_https, lists_port_https.
  rewrite andb_true_iff, opt_includes_iff. split.
  - intros [(addr & Ha & Ho) Hs]. unfold opt_startsWith in Hs.
    destruct (public_url t) as [v|]; [|discriminate].
    apply startsWith_inv in Hs as [rest ->]. exists addr, rest. auto.
  - intros (addr & rest & Ha & Ho & Hu). split; [eauto|].
    rewrite Hu. exact (startsWith_app "https" rest).
Qed.

(** X25.  [getNgrokTunnelUrl(port)] answers with a URL exactly when
    the agent's listing could be read and that URL is the public URL
    of the first listed tunnel whose address contains [:{port}] and
    whose public URL starts with https.  In every other case, an agent
    that does not answer in two seconds included, it answers [null]. *)
Theorem getNgrokTunnelUrl_is_first_listed :
  forall (port : Z) (listing : listing_reply) (u : string),
    getNgrokTunnelUrl port listing = Some u
    <-> exists before t after addr rest,
          listing = ListingDoc (Some (before ++ t :: after)%list)
          /\ config_addr t = Some addr
          /\ Occurs (":" ++ Js.show port) addr
          /\ public_url t = Some u
          /\ u = "https" ++ rest
          /\ Forall (fun x => ~ lists_port_https port x) before.
Proof.
  intros port listing u. split.
  - destruct listing as [| | | [ts|]]; cbn [getNgrokTunnelUrl];
      try discriminate.
    destruct (find (targets_port_https port) ts) as [t|] eqn:Ef;
      [|discriminate].
    apply find_some_first_match in Ef as (before & after & -> & Ht & Hb).
    destruct (Js.truthy_opt (public_url t)); [|discriminate].
    intros Hu.
    apply targets_port_https_iff in Ht as (addr & rest & Ha & Ho & Hp).
    exists before, t, after, addr, rest.
    split; [reflexivity|]. split; [exact Ha|]. split; [exact Ho|].
    split; [exact Hu|]. split; [congruence|].
    apply Forall_forall. intros x Hx Hl.
    apply targets_port_https_iff in Hl. rewrite (Hb x Hx) in Hl.
    discriminate.
  - intros (before & t & after & addr & rest & -> & Ha & Ho & Hu & -> & Hb).
    apply (getNgrokTunnelUrl_first_match port _ t); [|exact Hu].
    exists before, after. split; [reflexivity|]. split.
    + apply targets_port_https_iff. exists addr, rest. auto.
    + intros x Hx. rewrite Forall_forall in Hb. specialize (Hb x Hx).
      destruct (targets_port_https port x) eqn:E; [|reflexivity].
      exfalso. apply Hb. now apply targets_port_https_iff.
Qed.

Lemma getNgrokTunnelUrl_is_first_listed_witness :
  getNgrokTunnelUrl 3000 (ListingDoc (Some three_tunnels))
  = Some "https://porthole-3000.ngrok.io".
Proof.
  apply (proj2 (getNgrokTunnelUrl_is_first_listed 3000
                  (ListingDoc (Some three_tunnels))
                  "https://porthole-3000.ngrok.io")).
  exists [mkTunnel (Some "http://localhost:4000") (Some "https://four.ngrok.io");
          mkTunnel (Some "http://localhost:3000") (Some "http://plain.ngrok.io")],
         (mkTunnel (Some "http://localhost:3000")
                   (Some "https://porthole-3000.ngrok.io")),
         [], "http://localhost:3000", "://porthole-3000.ngrok.io".
  split; [reflexivity|]. split; [reflexivity|].
  split; [exists "http://localhost", EmptyString; reflexivity|].
  split; [reflexivity|]. split; [reflexivity|].
  constructor; [|constructor; [|constructor]].
  - intros (a & r & [= <-] & Ho & _).
    apply includes_iff in Ho. vm_compute in Ho. discriminate Ho.
  - intros (a & r & _ & _ & Hu). cbn [public_url] in Hu. discriminate Hu.
Defined.
